(** * Turbodoc browser extension: the offline bookmark queue and its reconciler

    A shallow embedding of
    - [StorageManager] (src/shared/lib/browser-compat.js): the offline queue
      kept under one key of [storage.local], the preferences and the time of
      the last sync;
    - [TurbodocAPI] (src/unnamed/part_002): [request], [createBookmark],
      [getErrorMessage], [setSession], [isAuthenticated];
    - [TurbodocBackground] (src/shared/popup/popup.html): [processOfflineQueue],
      [updateBadge], [showNotification], [handleContextMenuClick];
    - [parseTags] of the popup (src/unnamed/part_000, part_001);
    followed by the properties of the queue and of a reconciliation pass.

    JavaScript numbers are IEEE 754 binary64 values, so they are modelled by
    the kernel's primitive floats: [Date.now() + Math.random()] is a rounded
    floating point sum and [!==] on numbers is IEEE comparison. *)

From Stdlib Require Import Ascii PrimFloat SpecFloat FloatOps FloatAxioms.
From stdpp Require Import base option list gmap strings pretty.

Open Scope string_scope.
Open Scope list_scope.
Open Scope nat_scope.

(** ** JavaScript values *)

Module Js.

(** [a === b] on numbers: IEEE equality, so [NaN === NaN] is false. *)
Definition strict_eq (a b : float) : bool := PrimFloat.eqb a b.

(** [a !== b] on numbers. *)
Definition strict_ne (a b : float) : bool := negb (strict_eq a b).

(** A thrown [Error]: its [name] and its [message]. *)
Record Error := mkError { name : string; message : string }.

(** [new Error(message)] *)
Definition new_Error (msg : string) : Error := mkError "Error" msg.

(** [haystack.includes(needle)] on strings. *)
Fixpoint includes (needle haystack : string) : bool :=
  String.prefix needle haystack ||
  match haystack with
  | EmptyString => false
  | String _ rest => includes needle rest
  end.

(** The fields of a bookmark or note payload that the extension builds:
    strings ([title], [url], [contentType], [notes], [content]) and the
    array of tag names. *)
Inductive Value :=
| VString (s : string)
| VArray (items : list string).

(** The names of the members of [Object.prototype], which every object
    literal inherits; each of them is a function or, for [__proto__], an
    object. *)
Definition Object_prototype : list string :=
  [ "constructor"; "hasOwnProperty"; "isPrototypeOf"; "propertyIsEnumerable";
    "toLocaleString"; "toString"; "valueOf"; "__proto__";
    "__defineGetter__"; "__defineSetter__"; "__lookupGetter__"; "__lookupSetter__" ].

(** What the [error] field of a result holds: a string, or the member of
    [Object.prototype] of the given name when a lookup in an object literal
    hit an inherited member. *)
Inductive ErrorValue :=
| Text (s : string)
| Member (key : string).

(** The [TypeError] of reading [property] of [null], in V8's wording. *)
Definition TypeError_null (property : string) : Error :=
  mkError "TypeError" ("Cannot read properties of null (reading '" +:+ property +:+ "')").

End Js.

(** ** Data model *)

(** The object handed to [addToOfflineQueue]: a JS object used as a map from
    field names to values. *)
Abbreviation BookmarkData := (gmap string Js.Value).

(** An element of the persisted array:
    [{ ...bookmarkData, id: number, queuedAt: number }]. *)
Record QueueEntry := mkEntry {
  payload : BookmarkData;
  id : float;
  queuedAt : float
}.

Abbreviation Queue := (list QueueEntry).

(** [STORAGE_KEYS.OFFLINE_QUEUE] *)
Definition OFFLINE_QUEUE : string := "turbodoc_offline_queue".

(** ** The browser: storage, badge, notifications, console *)

Inductive Level := Log | Warn | Err.

Inductive Channel := ChromeNotifications | ConsoleFallback.

(** What a run does to the outside world, in the order it happens. *)
Inductive Event :=
| StorageGet (key : string)
| StorageSet (key : string) (value : Queue)
| StorageRemove (key : string)
| StorageClear
| CreateBookmark (item : QueueEntry)
| SetBadgeText (text : string)
| SetBadgeBackgroundColor (color : string)
| Notify (via : Channel) (title text : string)
| Console (level : Level) (text : string).

(** The state a run is threaded through.
    - [local]: the contents of [browserAPI.storage.local] (the queue key is
      the only one these functions touch);
    - [lastError]: for each coming call of the compatibility layer, whether
      the browser sets [runtime.lastError] (the call then rejects and has no
      effect); once the list is used up no call fails;
    - [chrome_notifications]: whether [chrome.notifications] exists;
    - [trace]: the events so far, oldest first. *)
Record World := mkWorld {
  local : gmap string Queue;
  lastError : list bool;
  chrome_notifications : bool;
  trace : list Event
}.

Definition emit (e : Event) (w : World) : World :=
  mkWorld (local w) (lastError w) (chrome_notifications w) (trace w ++ [e]).

Definition set_local (m : gmap string Queue) (w : World) : World :=
  mkWorld m (lastError w) (chrome_notifications w) (trace w).

Definition set_lastError (l : list bool) (w : World) : World :=
  mkWorld (local w) l (chrome_notifications w) (trace w).

(** ** Asynchronous computations that may throw *)

Inductive Completion (A : Type) :=
| Return (a : A)
| Throw (e : Js.Error).
Arguments Return {A} a.
Arguments Throw {A} e.

Definition Async (A : Type) : Type := World → Completion A * World.

Definition ret {A} (a : A) : Async A := λ w, (Return a, w).

Definition bind {A B} (m : Async A) (k : A → Async B) : Async B :=
  λ w, match m w with
       | (Return a, w') => k a w'
       | (Throw e, w') => (Throw e, w')
       end.

(** [try { body } catch (error) { handler }] *)
Definition try_catch {A} (body : Async A) (handler : Js.Error → Async A) : Async A :=
  λ w, match body w with
       | (Return a, w') => (Return a, w')
       | (Throw e, w') => handler e w'
       end.

Notation "'let*' x := m 'in' k" := (bind m (λ x, k))
  (at level 10, x name, m at level 100, k at level 200).
Notation "m ;;; k" := (bind m (λ _, k))
  (at level 100, k at level 200, right associativity).

(** The world after a run, and what the run evaluated to. *)
Definition exec {A} (m : Async A) (w : World) : World := (m w).2.
Definition outcome {A} (m : Async A) (w : World) : Completion A := (m w).1.

Definition console (level : Level) (text : string) : Async unit :=
  λ w, (Return tt, emit (Console level text) w).

(** The world once the given lines have been written to the console. *)
Definition logged (lines : list (Level * string)) (w : World) : World :=
  foldl (λ w line, emit (Console line.1 line.2) w) w lines.

(** ** browser-compat.js: the promise wrappers *)

Module browserCompat.

(** Every wrapper issues its call and then settles on [runtime.lastError]:
    it rejects with it when set, and resolves (after [effect]) otherwise. *)
Definition call {A} (e : Event) (effect : World → A * World) : Async A :=
  λ w,
    let w1 := emit e w in
    match lastError w1 with
    | true :: rest => (Throw (Js.mkError "Error" "runtime.lastError"), set_lastError rest w1)
    | false :: rest => let '(a, w2) := effect (set_lastError rest w1) in (Return a, w2)
    | [] => let '(a, w2) := effect w1 in (Return a, w2)
    end.

(** [storage.local.get(key)]: the value stored under [key], if any, i.e.
    [result[key]]. *)
Definition storage_local_get (key : string) : Async (option Queue) :=
  call (StorageGet key) (λ w, (local w !! key, w)).

(** [storage.local.set({ [key]: value })] *)
Definition storage_local_set (key : string) (value : Queue) : Async unit :=
  call (StorageSet key value) (λ w, (tt, set_local (<[key := value]> (local w)) w)).

(** [storage.local.remove(key)] *)
Definition storage_local_remove (key : string) : Async unit :=
  call (StorageRemove key) (λ w, (tt, set_local (delete key (local w)) w)).

(** [storage.local.clear()] *)
Definition storage_local_clear : Async unit :=
  call StorageClear (λ w, (tt, set_local ∅ w)).

(** [action.setBadgeText({ text })] *)
Definition action_setBadgeText (text : string) : Async unit :=
  call (SetBadgeText text) (λ w, (tt, w)).

(** [action.setBadgeBackgroundColor({ color })] *)
Definition action_setBadgeBackgroundColor (color : string) : Async unit :=
  call (SetBadgeBackgroundColor color) (λ w, (tt, w)).

End browserCompat.

(** ** StorageManager: the offline queue *)

Module StorageManager.
Import browserCompat.

(** The objects the methods resolve to:
    [{ success, error?, data? }]. *)
Record Result := mkResult {
  success : bool;
  error : option string;
  data : option Queue
}.

(** The readings of the clock and of the random number generator that one
    [addToOfflineQueue] takes, in evaluation order:
    [id: Date.now() + Math.random(), queuedAt: Date.now()]. *)
Record Readings := mkReadings {
  Date_now_1 : float;
  Math_random : float;
  Date_now_2 : float
}.

(** [{ ...bookmarkData, id: Date.now() + Math.random(), queuedAt: Date.now() }]:
    the two own fields shadow fields of the same name in [bookmarkData]. *)
Definition new_entry (bookmarkData : BookmarkData) (r : Readings) : QueueEntry :=
  mkEntry (delete "queuedAt" (delete "id" bookmarkData))
          (PrimFloat.add (Date_now_1 r) (Math_random r))
          (Date_now_2 r).

Definition addToOfflineQueue (bookmarkData : BookmarkData) (r : Readings) : Async Result :=
  try_catch
    (let* result := storage_local_get OFFLINE_QUEUE in
     let queue := default [] result in
     let queue := queue ++ [new_entry bookmarkData r] in
     storage_local_set OFFLINE_QUEUE queue ;;;
     ret (mkResult true None None))
    (λ _, ret (mkResult false (Some "Failed to add bookmark to offline queue") None)).

Definition getOfflineQueue : Async Result :=
  try_catch
    (let* result := storage_local_get OFFLINE_QUEUE in
     let queue := default [] result in
     ret (mkResult true None (Some queue)))
    (λ _, ret (mkResult false (Some "Failed to retrieve offline queue") (Some []))).

Definition removeFromOfflineQueue (itemId : float) : Async Result :=
  try_catch
    (let* result := storage_local_get OFFLINE_QUEUE in
     let queue := default [] result in
     let updatedQueue := List.filter (λ item, Js.strict_ne (id item) itemId) queue in
     storage_local_set OFFLINE_QUEUE updatedQueue ;;;
     ret (mkResult true None None))
    (λ _, ret (mkResult false (Some "Failed to remove item from offline queue") None)).

Definition clearOfflineQueue : Async Result :=
  try_catch
    (storage_local_remove OFFLINE_QUEUE ;;;
     ret (mkResult true None None))
    (λ _, ret (mkResult false (Some "Failed to clear offline queue") None)).

Definition clearAll : Async Result :=
  try_catch
    (storage_local_clear ;;;
     ret (mkResult true None None))
    (λ _, ret (mkResult false (Some "Failed to clear all data") None)).

End StorageManager.

(** The queue as [list()] returns it from a working store:
    [result[OFFLINE_QUEUE] || []]. *)
Definition queue_of (w : World) : Queue := default [] (local w !! OFFLINE_QUEUE).


(** ** The remote API client as the background service uses it *)

(** What [await this.api.createBookmark(item)] comes to: the promise resolves
    to a result object or rejects. *)
Record ApiResult := mkApiResult {
  api_success : bool;
  api_data : option string;
  api_error : option Js.ErrorValue
}.

Inductive Replay :=
| Resolved (result : ApiResult)
| Rejected (e : Js.Error).

(** [this.api]: the answer of [isAuthenticated()], and for the [k]-th
    submission of a pass (counted from 0) what [createBookmark(item)] comes
    to and what the call writes to the console before it settles. The remote
    service is outside the program, so its answers are a parameter of a run;
    nothing a pass does changes the session, so the answer of
    [isAuthenticated()] is one value for the whole pass. *)
Record Api := mkApi {
  api_isAuthenticated : bool;
  api_createBookmark : nat → QueueEntry → Replay;
  api_console : nat → QueueEntry → list (Level * string)
}.

(** ** TurbodocAPI (api-client.js) and the API configuration *)

Module TurbodocAPI.

Definition API_CONFIG_baseUrl : string := "https://api.turbodoc.ai".
Definition API_CONFIG_version : string := "v1".

(** [getApiUrl(endpoint)] *)
Definition getApiUrl (endpoint : string) : string :=
  let cleanEndpoint :=
    match endpoint with
    | String "/"%char rest => rest
    | _ => endpoint
    end in
  API_CONFIG_baseUrl +:+ "/" +:+ API_CONFIG_version +:+ "/" +:+ cleanEndpoint.

(** [validateApiConfig()]: the base URL is not empty. *)
Definition validateApiConfig : bool := negb (String.eqb API_CONFIG_baseUrl "").

Record Session := mkSession {
  access_token : string;
  session_user : option string
}.

(** The fields of the client that the methods below read, once [init()] has
    completed, so that the [await this.init()] at the head of a method
    returns at once: whether [this.supabase] is set, [this.session],
    [this.user]. *)
Record State := mkState {
  supabase : bool;
  session : option Session;
  user : option string
}.

(** [this.session = session; this.user = session?.user || null] *)
Definition setSession (s : option Session) (st : State) : State :=
  mkState (supabase st) s (s ≫= session_user).

(** [!!this.session && !!this.user] *)
Definition isAuthenticated (st : State) : bool :=
  bool_decide (is_Some (session st)) && bool_decide (is_Some (user st)).

(** The body sent by [createBookmark]. *)
Record Payload := mkPayload {
  p_title : option Js.Value;
  p_url : option Js.Value;
  p_tags : string;
  p_status : string
}.

Record Request := mkRequest {
  req_url : string;
  req_method : string;
  req_authorization : option string;
  req_body : Payload
}.

(** The two fields the client reads of a parsed JSON body. *)
Record Body := mkBody {
  body_message : option string;
  body_data : option string
}.

(** A parsed JSON body: [null], of which no field can be read, or any
    other value with the fields [message] and [data] it has (none on a
    number, a string, a boolean or an array). *)
Inductive Json :=
| JNull
| JValue (fields : Body).

(** What [fetch(url, requestOptions)] comes to: a response with its status
    and what [response.json()] comes to, or a rejection. *)
Inductive Fetch :=
| Response (status : Z) (json : Completion Json)
| FetchRejected (e : Js.Error).

(** [response.ok] *)
Definition ok (status : Z) : bool := (200 <=? status)%Z && (status <=? 299)%Z.

(** The [catch] of [request]: a [TypeError] that mentions [fetch] becomes
    [NETWORK_ERROR], anything else is thrown again. *)
Definition request_catch (e : Js.Error) : Completion Json :=
  if String.eqb (Js.name e) "TypeError" && Js.includes "fetch" (Js.message e)
  then Throw (Js.new_Error "NETWORK_ERROR")
  else Throw e.

Definition request (st : State) (fetch : Request → Fetch)
    (endpoint method : string) (body : Payload) : Completion Json :=
  if negb (supabase st) then Throw (Js.new_Error "Supabase client not initialized")
  else if negb validateApiConfig then Throw (Js.new_Error "API configuration is invalid")
  else
    let url := getApiUrl endpoint in
    let authorization :=
      match session st with
      | Some s => if String.eqb (access_token s) "" then None
                  else Some ("Bearer " +:+ access_token s)
      | None => None
      end in
    match fetch (mkRequest url method authorization body) with
    | FetchRejected e => request_catch e
    | Response status json =>
        if negb (ok status) then
          if (status =? 401)%Z then request_catch (Js.new_Error "UNAUTHORIZED")
          else if (status =? 403)%Z then request_catch (Js.new_Error "FORBIDDEN")
          else if (status =? 404)%Z then request_catch (Js.new_Error "NOT_FOUND")
          else if (500 <=? status)%Z then request_catch (Js.new_Error "SERVER_ERROR")
          else
            let errorData :=
              match json with Return b => b | Throw _ => JValue (mkBody None None) end in
            match errorData with
            | JNull => request_catch (Js.TypeError_null "message")
            | JValue fields =>
                let text :=
                  match body_message fields with
                  | Some m => if String.eqb m "" then "HTTP " +:+ pretty status else m
                  | None => "HTTP " +:+ pretty status
                  end in
                request_catch (Js.new_Error text)
            end
        else
          match json with
          | Return data => Return data
          | Throw e => request_catch e
          end
    end.

Definition errorMessages : gmap string string :=
  list_to_map
    [ ("UNAUTHORIZED", "Please sign in to continue");
      ("FORBIDDEN", "Access denied");
      ("NOT_FOUND", "Resource not found");
      ("SERVER_ERROR", "Server error. Please try again later");
      ("NETWORK_ERROR", "Network error. Please check your connection");
      ("TIMEOUT", "Request timeout. Please try again") ].

(** [errorMessages[errorCode] || errorCode || 'An unexpected error occurred']:
    [errorMessages] is an object literal, so the lookup also finds the
    members it inherits from [Object.prototype], all of them truthy. *)
Definition getErrorMessage (errorCode : string) : Js.ErrorValue :=
  match errorMessages !! errorCode with
  | Some text => Js.Text text
  | None =>
      if bool_decide (errorCode ∈ Js.Object_prototype) then Js.Member errorCode
      else if String.eqb errorCode "" then Js.Text "An unexpected error occurred"
      else Js.Text errorCode
  end.

(** [Array.isArray(tags) ? tags.join(',') : tags || ''] *)
Definition format_tags (tags : option Js.Value) : string :=
  match tags with
  | Some (Js.VArray items) => String.concat "," items
  | Some (Js.VString s) => s
  | None => ""
  end.

(** The [try] block of [createBookmark(bookmarkData)]. It reads [title],
    [url] and [tags] only, so a queue entry is passed as its payload fields;
    [response.data] throws when the body is [null]. *)
Definition createBookmark_try (st : State) (fetch : Request → Fetch)
    (bookmarkData : BookmarkData) : Completion ApiResult :=
  match user st with
  | None => Throw (Js.new_Error "User not authenticated")
  | Some _ =>
      let payload :=
        mkPayload (bookmarkData !! "title") (bookmarkData !! "url")
                  (format_tags (bookmarkData !! "tags")) "unread" in
      match request st fetch "bookmarks" "POST" payload with
      | Return JNull => Throw (Js.TypeError_null "data")
      | Return (JValue response) => Return (mkApiResult true (body_data response) None)
      | Throw e => Throw e
      end
  end.

(** What [createBookmark(bookmarkData)] resolves to: the result of the
    [try] block, or the failure its [catch] builds. *)
Definition createBookmark (st : State) (fetch : Request → Fetch)
    (bookmarkData : BookmarkData) : ApiResult :=
  match createBookmark_try st fetch bookmarkData with
  | Return result => result
  | Throw e => mkApiResult false None (Some (getErrorMessage (Js.message e)))
  end.

(** What [createBookmark(bookmarkData)] writes to the console: the
    [console.error('Create bookmark error:', error)] of its [catch]. *)
Definition createBookmark_console (st : State) (fetch : Request → Fetch)
    (bookmarkData : BookmarkData) : list (Level * string) :=
  match createBookmark_try st fetch bookmarkData with
  | Return _ => []
  | Throw _ => [ (Err, "Create bookmark error:") ]
  end.

(** The client as [TurbodocBackground] holds it: [fetch k] answers the
    request of the [k]-th submission. *)
Definition client (st : State) (fetch : nat → Request → Fetch) : Api :=
  mkApi (isAuthenticated st)
        (λ k item, Resolved (createBookmark st (fetch k) (payload item)))
        (λ k item, createBookmark_console st (fetch k) (payload item)).

(** The fields of the client after [logout()]: whatever [signOut] comes to,
    and also when it throws, the method ends with [this.setSession(null)]
    and resolves to [{ success: true }]. *)
Definition logout (st : State) : State := setSession None st.

(** The request [createBookmark(bookmarkData)] hands to [fetch]. *)
Definition bookmark_request (st : State) (bookmarkData : BookmarkData) : Request :=
  mkRequest "https://api.turbodoc.ai/v1/bookmarks" "POST"
    (match session st with
     | Some s => if String.eqb (access_token s) "" then None
                 else Some ("Bearer " +:+ access_token s)
     | None => None
     end)
    (mkPayload (bookmarkData !! "title") (bookmarkData !! "url")
               (format_tags (bookmarkData !! "tags")) "unread").

End TurbodocAPI.

(** ** TurbodocBackground: the reconciler *)

Module TurbodocBackground.
Import browserCompat.

(** [showNotification(title, message)]: through [chrome.notifications] when
    it exists, else the line [Notification: title - message] on the console. *)
Definition showNotification (title text : string) : Async unit :=
  λ w,
    if chrome_notifications w
    then (Return tt, emit (Notify ChromeNotifications title text) w)
    else (Return tt, emit (Notify ConsoleFallback title text) w).

Definition updateBadge (api : Api) : Async unit :=
  try_catch
    (if negb (api_isAuthenticated api) then action_setBadgeText ""
     else
       let* queueResult := StorageManager.getOfflineQueue in
       let offlineCount :=
         if StorageManager.success queueResult
         then length (default [] (StorageManager.data queueResult))
         else 0 in
       if 0 <? offlineCount then
         action_setBadgeText (pretty offlineCount) ;;;
         action_setBadgeBackgroundColor "#f59e0b"
       else action_setBadgeText "")
    (λ _, console Err "Failed to update badge:").

(** The body of the loop of [processOfflineQueue] for the [k]-th item, from
    the counters [(processedCount, failedCount)] to their new values. The
    call of [createBookmark] is the event [CreateBookmark], followed by what
    the call writes to the console. *)
Definition process_item (api : Api) (k : nat) (item : QueueEntry)
    (counts : nat * nat) : Async (nat * nat) :=
  let '(processedCount, failedCount) := counts in
  try_catch
    (let* result :=
       (λ w, let w1 := logged (api_console api k item) (emit (CreateBookmark item) w) in
             match api_createBookmark api k item with
             | Resolved r => (Return r, w1)
             | Rejected e => (Throw e, w1)
             end) in
     if api_success result then
       StorageManager.removeFromOfflineQueue (id item) ;;;
       ret (S processedCount, failedCount)
     else ret (processedCount, S failedCount))
    (λ _,
       console Err "Failed to process offline item:" ;;;
       ret (processedCount, S failedCount)).

(** [for (const item of queue) { ... }] *)
Fixpoint for_of_queue (api : Api) (k : nat) (queue : Queue)
    (counts : nat * nat) : Async (nat * nat) :=
  match queue with
  | [] => ret counts
  | item :: rest =>
      let* counts' := process_item api k item counts in
      for_of_queue api (S k) rest counts'
  end.

(** The statements of [processOfflineQueue] after the loop: the log line,
    the badge, the aggregate notification, the warning. *)
Definition report (api : Api) (counts : nat * nat) : Async unit :=
  let '(processedCount, failedCount) := counts in
  (if 0 <? processedCount then
     console Log ("Processed " +:+ pretty processedCount +:+ " offline bookmarks") ;;;
     updateBadge api ;;;
     if 1 <? processedCount then
       showNotification "Sync Complete"
         (pretty processedCount +:+ " offline bookmarks synced")
     else ret tt
   else ret tt) ;;;
  if 0 <? failedCount then
    console Warn ("Failed to process " +:+ pretty failedCount +:+ " offline bookmarks")
  else ret tt.

Definition processOfflineQueue (api : Api) : Async unit :=
  if negb (api_isAuthenticated api) then ret tt
  else
    try_catch
      (let* queueResult := StorageManager.getOfflineQueue in
       let queue := default [] (StorageManager.data queueResult) in
       if negb (StorageManager.success queueResult) || (length queue =? 0) then ret tt
       else
         let* counts := for_of_queue api 0 queue (0, 0) in
         report api counts)
      (λ _, console Err "Error processing offline queue:").

(** The [info] and [tab] arguments of a context menu click, with the fields
    the handler reads; a field that is [undefined] is [None]. *)
Record MenuInfo := mkMenuInfo {
  menuItemId : string;
  linkUrl : option string;
  selectionText : option string
}.

Record TabInfo := mkTabInfo {
  tab_title : option string;
  tab_url : option string
}.

(** Truthiness of a string or [undefined], [a || b], and a value
    interpolated in a template literal. *)
Definition truthy (o : option string) : bool :=
  match o with
  | Some s => negb (String.eqb s "")
  | None => false
  end.

Definition or_else (a b : option string) : option string :=
  if truthy a then a else b.

Definition interpolate (o : option string) : string := default "undefined" o.

(** An object literal; a field whose value is [undefined] reads as absent. *)
Definition object (fields : list (string * option Js.Value)) : BookmarkData :=
  list_to_map (omap (λ field, (λ v, (field.1, v)) <$> field.2) fields).

(** The line feed of the [notes] template and the quote of the
    [Bookmark Saved!] message. *)
Definition LF : string := String "010"%char EmptyString.
Definition QUOTE : string := String "034"%char EmptyString.

(** The [bookmarkData] a click builds: the link when a link item was
    clicked and [info.linkUrl] is set, the page otherwise. *)
Definition clicked_bookmark (info : MenuInfo) (tab : TabInfo) : BookmarkData :=
  if (String.eqb (menuItemId info) "save-link-to-turbodoc"
      || String.eqb (menuItemId info) "save-to-turbodoc-fallback"
      || String.eqb (menuItemId info) "save-to-turbodoc-immediate")
     && truthy (linkUrl info)
  then
    object
      [ ("title", Js.VString <$> or_else (selectionText info) (linkUrl info));
        ("url", Js.VString <$> linkUrl info);
        ("contentType", Some (Js.VString "link"));
        ("notes", Some (Js.VString
           (if truthy (selectionText info)
            then "From: " +:+ interpolate (tab_title tab) +:+ LF +:+ LF
                 +:+ "Selected text: " +:+ interpolate (selectionText info)
            else "From: " +:+ interpolate (tab_title tab))));
        ("tags", Some (Js.VArray [])) ]
  else
    object
      [ ("title", Js.VString <$> or_else (tab_title tab) (tab_url tab));
        ("url", Js.VString <$> tab_url tab);
        ("contentType", Some (Js.VString "link"));
        ("notes", Some (Js.VString
           (if truthy (selectionText info)
            then "Selected text: " +:+ interpolate (selectionText info)
            else "")));
        ("tags", Some (Js.VArray [])) ].

(** [bookmarkData.title] as the [Bookmark Saved!] message prints it. *)
Definition title_text (bookmarkData : BookmarkData) : string :=
  match bookmarkData !! "title" with
  | Some (Js.VString s) => s
  | Some (Js.VArray items) => String.concat "," items
  | None => "undefined"
  end.

(** [handleContextMenuClick(info, tab)] of a background service whose client
    is in state [st] and whose request [fetch] answers; [tab] is [None] when
    the browser passes no tab, and [r] are the readings an enqueue takes.
    Of the call of [createBookmark] the trace has what it writes to the
    console. An [error] that is not a string has no [includes], so testing
    it throws. *)
Definition handleContextMenuClick (st : TurbodocAPI.State)
    (fetch : TurbodocAPI.Request → TurbodocAPI.Fetch)
    (info : MenuInfo) (tab : option TabInfo)
    (r : StorageManager.Readings) : Async unit :=
  try_catch
    (if negb (TurbodocAPI.isAuthenticated st) then
       showNotification "Please sign in to Turbodoc first"
         "Sign in by clicking the Turbodoc extension icon"
     else
       match tab with
       | None =>
           λ w, (Throw (Js.mkError "TypeError" "Cannot read properties of undefined"), w)
       | Some tab =>
           let bookmarkData := clicked_bookmark info tab in
           let result := TurbodocAPI.createBookmark st fetch bookmarkData in
           (λ w, (Return tt,
                  logged (TurbodocAPI.createBookmark_console st fetch bookmarkData) w)) ;;;
           if api_success result then
             showNotification "Bookmark Saved!"
               (QUOTE +:+ title_text bookmarkData +:+ QUOTE +:+ " was saved to Turbodoc") ;;;
             updateBadge (TurbodocAPI.client st (λ _, fetch))
           else
             match api_error result with
             | None =>
                 λ w, (Throw (Js.mkError "TypeError" "Cannot read properties of undefined"), w)
             | Some (Js.Member _) =>
                 λ w, (Throw (Js.mkError "TypeError" "result.error.includes is not a function"), w)
             | Some (Js.Text error) =>
                 if Js.includes "Network" error || Js.includes "Server" error then
                   StorageManager.addToOfflineQueue bookmarkData r ;;;
                   showNotification "Saved Offline"
                     "Bookmark will sync when connection is restored"
                 else showNotification "Error" error
             end
       end)
    (λ _,
       console Err "Context menu error:" ;;;
       showNotification "Error" "Failed to save bookmark").

End TurbodocBackground.

(** ** StorageManager: preferences and the last sync *)

(** The other keys of [storage.local] hold values of other shapes than the
    queue, so the methods that use them run on a store of their own: what
    is kept under each key, and for each coming call whether the browser
    sets [runtime.lastError] (no call fails once the list is used up). *)
Module KeyValue.

Record Store (V : Type) := mkStore {
  items : gmap string V;
  rejections : list bool
}.
Arguments mkStore {V} items rejections.
Arguments items {V} s.
Arguments rejections {V} s.

Definition lastError_thrown : Js.Error := Js.mkError "Error" "runtime.lastError".

(** [storage.local.get(key)], resolving to [result[key]]. *)
Definition get {V} (key : string) (s : Store V) : Completion (option V) * Store V :=
  match rejections s with
  | true :: rest => (Throw lastError_thrown, mkStore (items s) rest)
  | false :: rest => (Return (items s !! key), mkStore (items s) rest)
  | [] => (Return (items s !! key), s)
  end.

(** [storage.local.set({ [key]: value })] *)
Definition set {V} (key : string) (value : V) (s : Store V) : Completion unit * Store V :=
  match rejections s with
  | true :: rest => (Throw lastError_thrown, mkStore (items s) rest)
  | false :: rest => (Return tt, mkStore (<[key := value]> (items s)) rest)
  | [] => (Return tt, mkStore (<[key := value]> (items s)) [])
  end.

(** No coming call is rejected. *)
Definition working {V} (s : Store V) : Prop := Forall (λ b, b = false) (rejections s).

End KeyValue.

Module Preferences.
Import KeyValue.

(** The values of the preference fields. *)
Inductive PrefValue :=
| PBool (b : bool)
| PNumber (n : float)
| PString (s : string)
| PList (items : list string).

Abbreviation Prefs := (gmap string PrefValue).

(** [STORAGE_KEYS.PREFERENCES] *)
Definition PREFERENCES : string := "turbodoc_preferences".

Record Result := mkResult {
  success : bool;
  error : option string;
  data : option Prefs
}.

Definition getDefaultPreferences : Prefs :=
  {[ "autoClosePopup" := PBool true;
     "autoCloseDelay" := PNumber 1500%float;
     "showNotifications" := PBool true;
     "defaultTags" := PList [];
     "theme" := PString "light" ]}.

Definition getPreferences (s : Store Prefs) : Result * Store Prefs :=
  match get PREFERENCES s with
  | (Return result, s') =>
      (mkResult true None (Some (default getDefaultPreferences result)), s')
  | (Throw _, s') =>
      (mkResult false (Some "Failed to retrieve preferences") (Some getDefaultPreferences), s')
  end.

(** [setPreferences(preferences)], [now] being the [Date.now()] of
    [updatedAt]: [{ ...currentPrefs.data, ...preferences, updatedAt }]. *)
Definition setPreferences (preferences : Prefs) (now : float) (s : Store Prefs)
    : Result * Store Prefs :=
  let '(currentPrefs, s1) := getPreferences s in
  let updatedPrefs :=
    <["updatedAt" := PNumber now]> (preferences ∪ default ∅ (data currentPrefs)) in
  match set PREFERENCES updatedPrefs s1 with
  | (Return _, s2) => (mkResult true None None, s2)
  | (Throw _, s2) => (mkResult false (Some "Failed to store preferences") None, s2)
  end.

End Preferences.

Module LastSync.
Import KeyValue.

(** [STORAGE_KEYS.LAST_SYNC] *)
Definition LAST_SYNC : string := "turbodoc_last_sync".

Record Result := mkResult {
  success : bool;
  error : option string;
  data : option float
}.

(** Truthiness of a number: every number but [0], [-0] and [NaN]. *)
Definition truthy (n : float) : bool :=
  negb (PrimFloat.eqb n 0%float) && PrimFloat.eqb n n.

(** [setLastSync(timestamp)]; the caller's default [Date.now()] is passed
    like any other timestamp. *)
Definition setLastSync (timestamp : float) (s : Store float) : Result * Store float :=
  match set LAST_SYNC timestamp s with
  | (Return _, s') => (mkResult true None None, s')
  | (Throw _, s') => (mkResult false (Some "Failed to set last sync timestamp") None, s')
  end.

(** [getLastSync()]: [result[LAST_SYNC] || 0]. *)
Definition getLastSync (s : Store float) : Result * Store float :=
  match get LAST_SYNC s with
  | (Return result, s') =>
      (mkResult true None
         (Some match result with
               | Some n => if truthy n then n else 0%float
               | None => 0%float
               end), s')
  | (Throw _, s') =>
      (mkResult false (Some "Failed to retrieve last sync timestamp") (Some 0%float), s')
  end.

End LastSync.

(** ** TurbodocPopup: the tags field *)

Module TurbodocPopup.

Section tags.
(** The code units [String.prototype.trim] strips. *)
Variable whitespace : ascii → bool.

(** [s.split(sep)] for a separator of one character. *)
Fixpoint split_on (sep : ascii) (s : string) : list string :=
  match s with
  | EmptyString => [EmptyString]
  | String c rest =>
      if Ascii.eqb c sep then EmptyString :: split_on sep rest
      else match split_on sep rest with
           | piece :: pieces => String c piece :: pieces
           | [] => [String c EmptyString]
           end
  end.

Fixpoint trim_start (s : string) : string :=
  match s with
  | EmptyString => EmptyString
  | String c rest => if whitespace c then trim_start rest else s
  end.

Fixpoint trim_end (s : string) : string :=
  match s with
  | EmptyString => EmptyString
  | String c rest =>
      match trim_end rest with
      | EmptyString => if whitespace c then EmptyString else String c EmptyString
      | kept => String c kept
      end
  end.

(** [s.trim()] *)
Definition trim (s : string) : string := trim_end (trim_start s).

(** [tagsString.split(',').map(tag => tag.trim()).filter(tag => tag.length > 0)] *)
Definition parsed_tags (tagsString : string) : list string :=
  List.filter (λ tag, negb (String.eqb tag EmptyString))
    (map trim (split_on ","%char tagsString)).

(** [parseTags(tagsString)]; [formData.get('tags')] is a string or [null]. *)
Definition parseTags (tagsString : option string) : string :=
  match tagsString with
  | None => EmptyString
  | Some EmptyString => EmptyString
  | Some s => String.concat "|" (parsed_tags s)
  end.

End tags.

(** The white space and line terminators of ECMAScript among the code units
    below 256: TAB, LF, VT, FF, CR, SP and NBSP. *)
Definition js_whitespace (c : ascii) : bool :=
  match nat_of_ascii c with
  | 9 | 10 | 11 | 12 | 13 | 32 | 160 => true
  | _ => false
  end.

End TurbodocPopup.

(** ** Reading a trace *)

(** The items handed to [api.createBookmark], in order. *)
Definition submitted (tr : list Event) : Queue :=
  omap (λ e, match e with CreateBookmark item => Some item | _ => None end) tr.

(** The notifications shown, as (title, message), in order. *)
Definition notifications (tr : list Event) : list (string * string) :=
  omap (λ e, match e with Notify _ title text => Some (title, text) | _ => None end) tr.

(** ** Vocabulary of the statements *)

(** The verdict the browser gives the next call of the compatibility layer,
    and the world once that call [e] has been issued and has settled. *)
Definition verdict (w : World) : bool := hd false (lastError w).

Definition settle (e : Event) (w : World) : World :=
  set_lastError (tail (lastError w)) (emit e w).

(** No coming call of the compatibility layer fails. *)
Definition healthy (w : World) : Prop := Forall (λ b, b = false) (lastError w).

(** The replay resolved to a result with [success] set. *)
Definition replay_ok (r : Replay) : bool :=
  match r with
  | Resolved result => api_success result
  | Rejected _ => false
  end.

(** No two entries at different positions have ids that are [===]. *)
Fixpoint unique_ids (q : Queue) : bool :=
  match q with
  | [] => true
  | e :: rest =>
      forallb (λ x, Js.strict_ne (id e) (id x) && Js.strict_ne (id x) (id e)) rest
      && unique_ids rest
  end.

(** Some entry of [q] has an id that is [===] to [itemId]. *)
Definition present (itemId : float) (q : Queue) : bool :=
  existsb (λ item, Js.strict_eq (id item) itemId) q.

(** Every id is [===] to itself, as every number but [NaN] is. *)
Definition ids_are_numbers (q : Queue) : Prop :=
  Forall (λ e, Js.strict_eq (id e) (id e) = true) q.

(** The exact value of a finite number, counted in units of 2^-1074, of
    which every finite binary64 number is a whole multiple; [None] for the
    infinities and [NaN]. *)
Definition SFunits (x : spec_float) : option Z :=
  match x with
  | S754_zero _ => Some 0%Z
  | S754_finite s m e =>
      if (-1074 <=? e)%Z then Some (cond_Zopp s (Zpos m * 2 ^ (e + 1074)))%Z else None
  | _ => None
  end.

Definition units (x : float) : option Z := SFunits (Prim2SF x).

(** The whole number [x] is, when it is one. *)
Definition whole (x : float) : option Z :=
  match units x with
  | Some v => if (v mod 2 ^ 1074 =? 0)%Z then Some (v / 2 ^ 1074)%Z else None
  | None => None
  end.

(** [0 <= x < 1], as [Math.random()] returns. *)
Definition fraction (x : float) : bool :=
  match units x with
  | Some v => (0 <=? v)%Z && (v <? 2 ^ 1074)%Z
  | None => false
  end.

(** The millisecond at which an enqueue reads the clock for its id, when
    the readings are as the browser gives them: [Date.now()] a whole number
    of milliseconds from 0 to below 2^52 and [Math.random()] a number from
    0 to below 1. *)
Definition clock (r : StorageManager.Readings) : option Z :=
  match whole (StorageManager.Date_now_1 r) with
  | Some t =>
      if (0 <=? t)%Z && (t + 1 <=? 2 ^ 52)%Z && fraction (StorageManager.Math_random r)
      then Some t else None
  | None => None
  end.

(** Any two of the milliseconds are at least 2 apart. *)
Fixpoint apart (ts : list Z) : bool :=
  match ts with
  | [] => true
  | t :: rest => forallb (λ u, (t + 2 <=? u)%Z || (u + 2 <=? t)%Z) rest && apart rest
  end.

(** [x] is not a number from [t] to [t + 1]. *)
Definition outside (x : float) (t : Z) : bool :=
  match units x with
  | Some v => (v <? t * 2 ^ 1074)%Z || ((t + 1) * 2 ^ 1074 <? v)%Z
  | None => true
  end.

(** The ids of the items of [q] whose replay succeeds, when [q] is submitted
    from position [k] on. *)
Fixpoint acknowledged (api : Api) (k : nat) (q : Queue) : list float :=
  match q with
  | [] => []
  | item :: rest =>
      if replay_ok (api_createBookmark api k item)
      then id item :: acknowledged api (S k) rest
      else acknowledged api (S k) rest
  end.

(** How many replays of [q] succeed and how many fail. *)
Fixpoint tally (api : Api) (k : nat) (q : Queue) : nat * nat :=
  match q with
  | [] => (0, 0)
  | item :: rest =>
      let '(p, f) := tally api (S k) rest in
      if replay_ok (api_createBookmark api k item) then (S p, f) else (p, S f)
  end.

(** Two replays the reconciler could tell apart only by the error carried. *)
Definition same_verdict (r1 r2 : Replay) : Prop :=
  match r1, r2 with
  | Resolved a, Resolved b => api_success a = api_success b
  | Rejected _, Rejected _ => True
  | _, _ => False
  end.

(** The classification made where a save fails and may be queued
    ([handleSaveBookmark], [handleContextMenuClick]):
    [result.error.includes('Network') || result.error.includes('Server')]. *)
Definition retryable (error : string) : bool :=
  Js.includes "Network" error || Js.includes "Server" error.

(** The methods of [StorageManager] that read or write the queue key. *)
Inductive QueueOp :=
| Enqueue (bookmarkData : BookmarkData) (r : StorageManager.Readings)
| List_
| Remove (itemId : float)
| Clear
| ClearAll.

Definition run_op (op : QueueOp) : Async StorageManager.Result :=
  match op with
  | Enqueue bookmarkData r => StorageManager.addToOfflineQueue bookmarkData r
  | List_ => StorageManager.getOfflineQueue
  | Remove itemId => StorageManager.removeFromOfflineQueue itemId
  | Clear => StorageManager.clearOfflineQueue
  | ClearAll => StorageManager.clearAll
  end.

(** One [addToOfflineQueue] after the other. *)
Definition enqueue_all (items : list (BookmarkData * StorageManager.Readings))
    (w : World) : World :=
  foldl (λ w item, exec (StorageManager.addToOfflineQueue item.1 item.2) w) w items.

Definition new_entries (items : list (BookmarkData * StorageManager.Readings)) : Queue :=
  map (λ item, StorageManager.new_entry item.1 item.2) items.

(** [w'] differs from [w] by storage, badge and console activity only:
    nothing was submitted and no notification was shown in between. *)
Definition quiet (w w' : World) : Prop :=
  chrome_notifications w' = chrome_notifications w ∧
  submitted (trace w') = submitted (trace w) ∧
  notifications (trace w') = notifications (trace w).

(** Events that are neither a submission nor a notification. *)
Definition silent (e : Event) : bool :=
  match e with
  | CreateBookmark _ | Notify _ _ _ => false
  | _ => true
  end.

(** The console lines of a trace, in order. *)
Definition console_lines (tr : list Event) : list (Level * string) :=
  omap (λ e, match e with Console level text => Some (level, text) | _ => None end) tr.

(** Whether the save path puts the bookmark in the offline queue, given
    what [createBookmark] resolved to: the call failed and its error is
    [retryable]. *)
Definition queued_on_failure (result : ApiResult) : bool :=
  negb (api_success result) &&
  match api_error result with
  | Some (Js.Text error) => retryable error
  | _ => false
  end.

(** The texts handed to [action.setBadgeText], in order. *)
Definition badge_texts (tr : list Event) : list string :=
  omap (λ e, match e with SetBadgeText text => Some text | _ => None end) tr.

(** The items of [q] whose replay does not succeed, when [q] is submitted
    from position [k] on. *)
Fixpoint unacknowledged (api : Api) (k : nat) (q : Queue) : Queue :=
  match q with
  | [] => []
  | item :: rest =>
      if replay_ok (api_createBookmark api k item)
      then unacknowledged api (S k) rest
      else item :: unacknowledged api (S k) rest
  end.

(** ** Concrete worlds and clients for the scenarios *)

(** A fresh profile: nothing stored, no failing call ahead. *)
Definition empty_world : World := mkWorld ∅ [] true [].

(** A world with two entries. *)
Definition two_entries : World :=
  mkWorld {[ OFFLINE_QUEUE := [ mkEntry ∅ 1.25%float 1%float; mkEntry ∅ 2.5%float 2%float ] ]}
          [] true [].

(** A world with a value under another key of the store beside the queue. *)
Definition queue_and_last_sync : World :=
  mkWorld {[ OFFLINE_QUEUE := [ mkEntry ∅ 1.25%float 1%float ];
             "turbodoc_last_sync" := [] ]} [] true [].

(** Payload A (title "Foo", url "http://x") and payload B (title "Bar",
    url "http://y"). *)
Definition payload_A : BookmarkData :=
  {[ "title" := Js.VString "Foo"; "url" := Js.VString "http://x" ]}.

Definition payload_B : BookmarkData :=
  {[ "title" := Js.VString "Bar"; "url" := Js.VString "http://y" ]}.

Definition payload_C : BookmarkData :=
  {[ "title" := Js.VString "Baz"; "url" := Js.VString "http://z" ]}.

(** A enqueued at millisecond 1700000000000, B one millisecond and C two
    milliseconds later. *)
Definition readings_A : StorageManager.Readings :=
  StorageManager.mkReadings 1700000000000%float 0.25%float 1700000000000%float.

Definition readings_B : StorageManager.Readings :=
  StorageManager.mkReadings 1700000000001%float 0.5%float 1700000000001%float.

Definition readings_C : StorageManager.Readings :=
  StorageManager.mkReadings 1700000000002%float 0.75%float 1700000000002%float.

Definition entry_A : QueueEntry := StorageManager.new_entry payload_A readings_A.

Definition later_enqueues : list (BookmarkData * StorageManager.Readings) :=
  [ (payload_A, readings_A); (payload_B, readings_B) ].

Definition three_enqueues : list (BookmarkData * StorageManager.Readings) :=
  later_enqueues ++ [ (payload_C, readings_C) ].

(** A and B enqueued within the same millisecond, [Math.random()] giving
    0.5 and then 0.5 + 2^-16: near 1.7e12 a binary64 number has 12 bits
    after the point, so both sums round to 1700000000000.5. *)
Definition same_millisecond : list (BookmarkData * StorageManager.Readings) :=
  [ (payload_A, StorageManager.mkReadings 1700000000000%float 0.5%float 1700000000000%float);
    (payload_B, StorageManager.mkReadings 1700000000000%float 0.5000152587890625%float
                  1700000000000%float) ].

(** A enqueued at millisecond 1700000000000 and C two milliseconds later. *)
Definition two_milliseconds_apart : list (BookmarkData * StorageManager.Readings) :=
  [ (payload_A, readings_A); (payload_C, readings_C) ].

(** A and B enqueued in consecutive milliseconds, [Math.random()] giving
    1 - 2^-14 and then 0: the first sum rounds up to 1700000000001, which
    is the second sum. *)
Definition consecutive_milliseconds : list (BookmarkData * StorageManager.Readings) :=
  [ (payload_A, StorageManager.mkReadings 1700000000000%float 0.99993896484375%float
                  1700000000000%float);
    (payload_B, StorageManager.mkReadings 1700000000001%float 0%float
                  1700000000001%float) ].

(** A click on [Save to Turbodoc] on a page, with no link and no selection,
    and the tab it happened in. *)
Definition page_click : TurbodocBackground.MenuInfo :=
  TurbodocBackground.mkMenuInfo "save-to-turbodoc" None None.

Definition docs_tab : TurbodocBackground.TabInfo :=
  TurbodocBackground.mkTabInfo (Some "Docs") (Some "https://example.com/docs").

(** A signed-in client. *)
Definition signed_in : TurbodocAPI.State :=
  TurbodocAPI.setSession
    (Some (TurbodocAPI.mkSession "token" (Some "user@example.com")))
    (TurbodocAPI.mkState true None None).

(** A signed-out client. *)
Definition signed_out : TurbodocAPI.State := TurbodocAPI.mkState true None None.

Definition created : TurbodocAPI.Fetch :=
  TurbodocAPI.Response 201
    (Return (TurbodocAPI.JValue (TurbodocAPI.mkBody None (Some "record")))).

(** The service answers every request with the given status and no JSON body. *)
Definition status_only (status : Z) (k : nat) (r : TurbodocAPI.Request) : TurbodocAPI.Fetch :=
  TurbodocAPI.Response status (Throw (Js.mkError "SyntaxError" "Unexpected end of JSON input")).

(** The service answers the first request with 500 and creates the rest. *)
Definition server_error_then_created (k : nat) (r : TurbodocAPI.Request) : TurbodocAPI.Fetch :=
  match k with
  | 0 => status_only 500 k r
  | _ => created
  end.

(** The service refuses the request with status 400 and the message
    [constructor], and the service that answers 200 with the body [null]. *)
Definition bad_request_constructor (r : TurbodocAPI.Request) : TurbodocAPI.Fetch :=
  TurbodocAPI.Response 400
    (Return (TurbodocAPI.JValue (TurbodocAPI.mkBody (Some "constructor") None))).

Definition ok_null (r : TurbodocAPI.Request) : TurbodocAPI.Fetch :=
  TurbodocAPI.Response 200 (Return TurbodocAPI.JNull).

(** The service creates the bookmark it is asked for. *)
Definition always_created_once (r : TurbodocAPI.Request) : TurbodocAPI.Fetch := created.

(** The service creates every bookmark. *)
Definition always_created (k : nat) (r : TurbodocAPI.Request) : TurbodocAPI.Fetch := created.

(** * Properties *)

(** ** Worlds and calls *)

Section world_facts.
Implicit Types (w : World) (e : Event).

Lemma local_settle e w : local (settle e w) = local w.
Proof. reflexivity. Qed.

Lemma trace_settle e w : trace (settle e w) = trace w ++ [e].
Proof. reflexivity. Qed.

Lemma lastError_settle e w : lastError (settle e w) = tail (lastError w).
Proof. reflexivity. Qed.

Lemma queue_of_settle e w : queue_of (settle e w) = queue_of w.
Proof. reflexivity. Qed.

Lemma queue_of_emit e w : queue_of (emit e w) = queue_of w.
Proof. reflexivity. Qed.

Lemma local_emit e w : local (emit e w) = local w.
Proof. reflexivity. Qed.

Lemma queue_of_set_local m w :
  queue_of (set_local m w) = default [] (m !! OFFLINE_QUEUE).
Proof. reflexivity. Qed.

Lemma healthy_verdict w : healthy w → verdict w = false.
Proof.
  unfold healthy, verdict. destruct (lastError w) as [|b l]; [done|].
  intros H. by apply Forall_cons in H as [-> _].
Qed.

Lemma healthy_settle e w : healthy w → healthy (settle e w).
Proof.
  unfold healthy. rewrite lastError_settle.
  destruct (lastError w) as [|b l]; [done|].
  intros H. by apply Forall_cons in H as [_ ?].
Qed.

Lemma healthy_emit e w : healthy w → healthy (emit e w).
Proof. done. Qed.

Lemma healthy_set_local m w : healthy w → healthy (set_local m w).
Proof. done. Qed.

Lemma logged_eq lines w :
  logged lines w
  = mkWorld (local w) (lastError w) (chrome_notifications w)
      (trace w ++ map (λ line, Console line.1 line.2) lines).
Proof.
  revert w. induction lines as [|line lines IH]; intros w.
  { destruct w. simpl. by rewrite app_nil_r. }
  change (logged (line :: lines) w) with (logged lines (emit (Console line.1 line.2) w)).
  rewrite IH. simpl. by rewrite <-app_assoc.
Qed.

Lemma local_logged lines w : local (logged lines w) = local w.
Proof. by rewrite logged_eq. Qed.

Lemma queue_of_logged lines w : queue_of (logged lines w) = queue_of w.
Proof. by rewrite logged_eq. Qed.

Lemma verdict_logged lines w : verdict (logged lines w) = verdict w.
Proof. by rewrite logged_eq. Qed.

Lemma healthy_logged lines w : healthy w → healthy (logged lines w).
Proof. by rewrite logged_eq. Qed.

Lemma call_eq {A} e (effect : World → A * World) w :
  browserCompat.call e effect w =
  if verdict w then (Throw (Js.mkError "Error" "runtime.lastError"), settle e w)
  else let '(a, w2) := effect (settle e w) in (Return a, w2).
Proof.
  unfold browserCompat.call, verdict, settle.
  destruct w as [m l c t]; simpl. by destruct l as [|[] l].
Qed.

End world_facts.

(** ** The queue operations, as equations *)

Section storage_manager_facts.
Import StorageManager.
Implicit Types (w : World) (q : Queue).

Lemma getOfflineQueue_eq w :
  getOfflineQueue w =
  (Return (if verdict w
           then mkResult false (Some "Failed to retrieve offline queue") (Some [])
           else mkResult true None (Some (queue_of w))),
   settle (StorageGet OFFLINE_QUEUE) w).
Proof.
  unfold getOfflineQueue, try_catch, bind, browserCompat.storage_local_get.
  rewrite call_eq. by destruct (verdict w).
Qed.

Lemma removeFromOfflineQueue_eq itemId w :
  let w1 := settle (StorageGet OFFLINE_QUEUE) w in
  let updatedQueue := List.filter (λ item, Js.strict_ne (id item) itemId) (queue_of w) in
  let w2 := settle (StorageSet OFFLINE_QUEUE updatedQueue) w1 in
  let failed := mkResult false (Some "Failed to remove item from offline queue") None in
  removeFromOfflineQueue itemId w =
  if verdict w then (Return failed, w1)
  else if verdict w1 then (Return failed, w2)
  else (Return (mkResult true None None),
        set_local (<[OFFLINE_QUEUE := updatedQueue]> (local w)) w2).
Proof.
  unfold removeFromOfflineQueue, try_catch, bind, browserCompat.storage_local_get,
    browserCompat.storage_local_set.
  rewrite call_eq. destruct (verdict w); [done|].
  cbn iota beta zeta. rewrite call_eq. by destruct (verdict _).
Qed.

Lemma addToOfflineQueue_eq bookmarkData r w :
  let w1 := settle (StorageGet OFFLINE_QUEUE) w in
  let queue := queue_of w ++ [new_entry bookmarkData r] in
  let w2 := settle (StorageSet OFFLINE_QUEUE queue) w1 in
  let failed := mkResult false (Some "Failed to add bookmark to offline queue") None in
  addToOfflineQueue bookmarkData r w =
  if verdict w then (Return failed, w1)
  else if verdict w1 then (Return failed, w2)
  else (Return (mkResult true None None),
        set_local (<[OFFLINE_QUEUE := queue]> (local w)) w2).
Proof.
  unfold addToOfflineQueue, try_catch, bind, browserCompat.storage_local_get,
    browserCompat.storage_local_set.
  rewrite call_eq. destruct (verdict w); [done|].
  cbn iota beta zeta. rewrite call_eq. by destruct (verdict _).
Qed.

End storage_manager_facts.

(** ** Lists filtered by a boolean test *)

Section filter_facts.
Context {A : Type}.
Implicit Types (f g : A → bool) (l : list A).

Lemma filter_all f l : forallb f l = true → List.filter f l = l.
Proof.
  induction l as [|x l IH]; simpl; [done|].
  intros [Hx Hl]%andb_prop. rewrite Hx. f_equal. by apply IH.
Qed.

Lemma filter_none f l : forallb (λ x, negb (f x)) l = true → List.filter f l = [].
Proof.
  induction l as [|x l IH]; simpl; [done|].
  intros [Hx Hl]%andb_prop. apply negb_true_iff in Hx as ->. by apply IH.
Qed.

Lemma filter_sublist f l : sublist (List.filter f l) l.
Proof.
  induction l as [|x l IH]; simpl; [constructor|].
  destruct (f x); by constructor.
Qed.

Lemma elem_of_filter_bool f l x : x ∈ List.filter f l ↔ x ∈ l ∧ f x = true.
Proof. rewrite !list_elem_of_In. apply filter_In. Qed.

Lemma filter_filter f g l :
  List.filter f (List.filter g l) = List.filter (λ x, g x && f x) l.
Proof.
  induction l as [|x l IH]; simpl; [done|].
  destruct (g x); simpl; [destruct (f x)|]; by rewrite IH.
Qed.

Lemma filter_ext_in f g l :
  (∀ x, x ∈ l → f x = g x) → List.filter f l = List.filter g l.
Proof.
  induction l as [|x l IH]; simpl; [done|]. intros H.
  rewrite (H x) by left. rewrite IH; [done|]. intros y Hy. apply H. by right.
Qed.

End filter_facts.

Lemma present_false_forallb itemId (q : Queue) :
  present itemId q = false →
  forallb (λ item, Js.strict_ne (id item) itemId) q = true.
Proof.
  unfold present, Js.strict_ne. induction q as [|e q IH]; simpl; [done|].
  intros [-> Hq]%orb_false_elim. simpl. by apply IH.
Qed.

(** ** IEEE equality *)

Lemma SFeqb_true_iff (a b : spec_float) :
  SFeqb a b = true ↔
  match a, b with
  | S754_zero _, S754_zero _ => True
  | S754_infinity s1, S754_infinity s2 => s1 = s2
  | S754_finite s1 m1 e1, S754_finite s2 m2 e2 => s1 = s2 ∧ m1 = m2 ∧ e1 = e2
  | _, _ => False
  end.
Proof.
  unfold SFeqb.
  destruct a as [s1|s1| |s1 m1 e1], b as [s2|s2| |s2 m2 e2]; simpl;
    try (destruct s1; done); try (destruct s2; done); try done.
  - destruct s1, s2; done.
  - change (Pos.compare_cont Eq m1 m2) with (Pos.compare m1 m2).
    destruct s1, s2; try (split; [done|by intros [? _]]);
      destruct (Z.compare_spec e1 e2) as [->|?|?];
      try (split; [done|intros (_&_&?); lia]);
      destruct (Pos.compare_spec m1 m2) as [->|?|?]; simpl;
      try done; split; try done; intros (_&?&_); lia.
Qed.

(** Two numbers that are [===] to a third are [===] to each other. *)
Lemma strict_eq_same a b x :
  Js.strict_eq a x = true → Js.strict_eq b x = true → Js.strict_eq a b = true.
Proof.
  unfold Js.strict_eq. rewrite !FloatAxioms.eqb_spec, !SFeqb_true_iff.
  destruct (Prim2SF a), (Prim2SF b), (Prim2SF x); try done;
    intros; destruct_and?; split_and?; congruence.
Qed.

(** ** Rounding of sums

    [Date.now() + Math.random()] is the binary64 number nearest to the exact
    sum. The specification of the addition ([SFadd]) aligns the two
    mantissas, adds them, and rounds the result in two shifts; the lemmas
    below follow it for a whole number of milliseconds below 2^52 and a
    fraction, where the grid of the result is never coarser than 1. *)

Section rounding.
Local Open Scope Z_scope.

Lemma fexp_eq e : fexp prec emax e = Z.max (e - 53) (-1074).
Proof. reflexivity. Qed.

Lemma digits2_pos_bounds m :
  2 ^ (Zpos (digits2_pos m) - 1) ≤ Zpos m < 2 ^ Zpos (digits2_pos m).
Proof.
  induction m as [m IH|m IH|]; simpl digits2_pos.
  - rewrite Pos2Z.inj_succ.
    replace (Z.succ (Z.pos (digits2_pos m)) - 1) with (Z.succ (Z.pos (digits2_pos m) - 1)) by lia.
    rewrite !Z.pow_succ_r by lia. lia.
  - rewrite Pos2Z.inj_succ.
    replace (Z.succ (Z.pos (digits2_pos m)) - 1) with (Z.succ (Z.pos (digits2_pos m) - 1)) by lia.
    rewrite !Z.pow_succ_r by lia. lia.
  - simpl. lia.
Qed.

Lemma shr_1_m mrs : 0 ≤ shr_m mrs → shr_m (shr_1 mrs) = shr_m mrs / 2.
Proof.
  destruct mrs as [m r s]. cbn [shr_m]. intros Hm.
  rewrite <-Z.div2_div.
  destruct m as [|[p|p|]|p]; try reflexivity; lia.
Qed.

Lemma iter_shr_1_m p mrs :
  0 ≤ shr_m mrs → shr_m (SpecFloat.iter_pos shr_1 p mrs) = shr_m mrs / 2 ^ Zpos p.
Proof.
  revert mrs. induction p as [p IH|p IH|]; intros mrs Hm; simpl SpecFloat.iter_pos.
  - assert (0 ≤ shr_m (shr_1 mrs)) as H1.
    { rewrite shr_1_m by done. apply Z.div_pos; lia. }
    assert (0 ≤ shr_m (SpecFloat.iter_pos shr_1 p (shr_1 mrs))) as H2.
    { rewrite IH by done. apply Z.div_pos; [done|]. apply Z.pow_pos_nonneg; lia. }
    assert (2 ^ Z.pos p~1 = 2 * 2 ^ Z.pos p * 2 ^ Z.pos p) as ->.
    { rewrite Pos2Z.inj_xI.
      replace (2 * Z.pos p + 1) with (1 + Z.pos p + Z.pos p) by lia.
      rewrite !Z.pow_add_r by lia. lia. }
    rewrite IH, IH, shr_1_m by done.
    assert (0 < 2 ^ Z.pos p) by (apply Z.pow_pos_nonneg; lia).
    rewrite !Z.div_div by lia. f_equal. lia.
  - assert (0 ≤ shr_m (SpecFloat.iter_pos shr_1 p mrs)) as H2.
    { rewrite IH by done. apply Z.div_pos; [done|]. apply Z.pow_pos_nonneg; lia. }
    assert (2 ^ Z.pos p~0 = 2 ^ Z.pos p * 2 ^ Z.pos p) as ->.
    { replace (Z.pos p~0) with (Z.pos p + Z.pos p) by lia.
      by rewrite Z.pow_add_r by lia. }
    rewrite IH, IH by done.
    assert (0 < 2 ^ Z.pos p) by (apply Z.pow_pos_nonneg; lia).
    rewrite !Z.div_div by lia. f_equal; lia.
  - rewrite shr_1_m by done. done.
Qed.

(** [shr] divides the mantissa by [2^n], rounding down, and adds [n] to the
    exponent. *)
Lemma shr_floor m r s e n :
  0 ≤ m →
  shr_m (shr (Build_shr_record m r s) e n).1 = m / 2 ^ Z.max n 0 ∧
  (shr (Build_shr_record m r s) e n).2 = e + Z.max n 0.
Proof.
  intros Hm. destruct n as [|p|p]; simpl.
  - rewrite Z.div_1_r. lia.
  - rewrite iter_shr_1_m by done. simpl. split; [done|lia].
  - rewrite Z.div_1_r. lia.
Qed.

Lemma shr_fexp_floor m e :
  0 ≤ m →
  let e' := Z.max e (fexp prec emax (Zdigits2 m + e)) in
  shr_m (shr_fexp prec emax m e loc_Exact).1 = m / 2 ^ (e' - e) ∧
  (shr_fexp prec emax m e loc_Exact).2 = e'.
Proof.
  intros Hm e'. unfold shr_fexp. simpl shr_record_of_loc.
  destruct (shr_floor m false false e (fexp prec emax (Zdigits2 m + e) - e) Hm) as [-> ->].
  subst e'. split; [f_equal; f_equal|]; lia.
Qed.

Lemma round_nearest_even_range m l :
  m ≤ round_nearest_even m l ≤ m + 1.
Proof.
  destruct l as [|[]]; simpl; try lia. destruct (Z.even m); lia.
Qed.

Lemma pos_iter_xO m d : Zpos (Pos.iter xO m d) = Zpos m * 2 ^ Zpos d.
Proof.
  induction d as [|d IH] using Pos.peano_ind.
  - simpl. lia.
  - rewrite Pos.iter_succ, Pos2Z.inj_xO, IH, Pos2Z.inj_succ, Z.pow_succ_r by lia. lia.
Qed.

Lemma pow2_pos n : 0 < 2 ^ n ∨ n < 0.
Proof. destruct (Z_lt_le_dec n 0); [by right|left; by apply Z.pow_pos_nonneg]. Qed.

Lemma pow2_split a b : 0 ≤ a → 0 ≤ b → 2 ^ (a + b) = 2 ^ a * 2 ^ b.
Proof. intros. by apply Z.pow_add_r. Qed.

(** A mantissa [m] at an exponent [e] from -1074 to 0 whose value
    [m * 2^e] is at most [2^52] has few enough digits for the exponent of
    its rounding to be at most 0. *)
Lemma small_digits m e :
  -1074 ≤ e ≤ 0 → 0 ≤ m ≤ 2 ^ (52 - e) → Zdigits2 m + e ≤ 53.
Proof.
  intros He [Hm0 Hm]. destruct m as [|p|p]; simpl; [lia| |lia].
  pose proof (digits2_pos_bounds p) as [Hd _].
  assert (2 ^ (Z.pos (digits2_pos p) - 1) ≤ 2 ^ (52 - e)) as Hpow by lia.
  apply Z.pow_le_mono_r_iff in Hpow; lia.
Qed.

(** On a small number [shr_fexp] divides the mantissa by a power of two,
    rounding down, and the new exponent is still at most 0. *)
Lemma shr_fexp_small m e :
  -1074 ≤ e ≤ 0 → 0 ≤ m ≤ 2 ^ (52 - e) →
  let e' := (shr_fexp prec emax m e loc_Exact).2 in
  e ≤ e' ≤ 0 ∧ shr_m (shr_fexp prec emax m e loc_Exact).1 = m / 2 ^ (e' - e).
Proof.
  intros He Hsmall. pose proof (small_digits m e He Hsmall) as Hd.
  destruct Hsmall as [Hm0 Hm].
  destruct (shr_fexp_floor m e Hm0) as [Hmant Hexp]. cbv zeta in *.
  rewrite Hmant, Hexp, fexp_eq. split; [lia|done].
Qed.

(** Rounding down to a coarser grid keeps a number between two points of
    that grid. *)
Lemma floor_between m e e' lo hi :
  e ≤ e' ≤ 0 →
  lo * 2 ^ (- e) ≤ m → m < hi * 2 ^ (- e) →
  lo * 2 ^ (- e') ≤ m / 2 ^ (e' - e) ∧ m / 2 ^ (e' - e) < hi * 2 ^ (- e').
Proof.
  intros He Hlo Hhi.
  assert (2 ^ (- e) = 2 ^ (e' - e) * 2 ^ (- e')) as Heq.
  { rewrite <-pow2_split by lia. f_equal. lia. }
  assert (0 < 2 ^ (e' - e)) by (apply Z.pow_pos_nonneg; lia).
  rewrite Heq in Hlo, Hhi. split.
  - apply Z.div_le_lower_bound; [done|]. lia.
  - apply Z.div_lt_upper_bound; [done|]. lia.
Qed.

(** The sum of a whole number [T] and a fraction, rounded to binary64, lies
    between [T] and [T + 1]. *)
Lemma binary_round_between (M : positive) (E T : Z) :
  -1074 ≤ E ≤ 0 → 0 ≤ T → T + 1 ≤ 2 ^ 52 →
  T * 2 ^ 1074 ≤ Zpos M * 2 ^ (E + 1074) < (T + 1) * 2 ^ 1074 →
  ∃ V, SFunits (binary_round prec emax false M E) = Some V ∧
       T * 2 ^ 1074 ≤ V ≤ (T + 1) * 2 ^ 1074.
Proof.
  intros HE HT0 HT [Hlo Hhi].
  assert (∀ e, -1074 ≤ e ≤ 0 → 2 ^ 1074 = 2 ^ (- e) * 2 ^ (e + 1074)) as Hunit.
  { intros e He. rewrite <-pow2_split by lia. f_equal. lia. }
  assert (∀ e, -1074 ≤ e ≤ 0 → 0 < 2 ^ (e + 1074)) as Hpos.
  { intros e He. apply Z.pow_pos_nonneg; lia. }
  assert (∀ e, -1074 ≤ e ≤ 0 → 0 < 2 ^ (- e)) as Hpos'.
  { intros e He. apply Z.pow_pos_nonneg; lia. }
  assert (∀ e, -1074 ≤ e ≤ 0 → (T + 1) * 2 ^ (- e) ≤ 2 ^ (52 - e)) as Hcap.
  { intros e He. replace (52 - e) with (52 + - e) by lia.
    rewrite pow2_split by lia. specialize (Hpos' e He). nia. }
  (* the alignment to the exponent of the result *)
  unfold binary_round.
  destruct (shl_align M E (fexp prec emax (Z.pos (digits2_pos M) + E))) as [mz e0] eqn:Halign.
  assert (-1074 ≤ e0 ≤ 0 ∧ T * 2 ^ (- e0) ≤ Zpos mz ∧ Zpos mz < (T + 1) * 2 ^ (- e0))
    as (He0 & Hlo0 & Hhi0).
  { unfold shl_align in Halign. rewrite fexp_eq in Halign.
    destruct (Z.max (Z.pos (digits2_pos M) + E - 53) (-1074) - E) as [|d|d] eqn:Hd;
      injection Halign as <- <-.
    - rewrite (Hunit E HE) in Hlo, Hhi. specialize (Hpos E HE). split; [done|]. nia.
    - rewrite (Hunit E HE) in Hlo, Hhi. specialize (Hpos E HE). split; [done|]. nia.
    - assert (-1074 ≤ Z.max (Z.pos (digits2_pos M) + E - 53) (-1074) ≤ 0) as He0 by lia.
      split; [done|]. rewrite pos_iter_xO.
      set (e0 := Z.max _ _) in *.
      assert (2 ^ (E + 1074) = 2 ^ Z.pos d * 2 ^ (e0 + 1074)) as Hshift.
      { rewrite <-pow2_split by lia. f_equal. lia. }
      rewrite Hshift, (Hunit e0 He0) in Hlo, Hhi. specialize (Hpos e0 He0). nia. }
  clear Halign Hlo Hhi.
  (* the first shift *)
  unfold binary_round_aux.
  assert (0 ≤ Zpos mz ≤ 2 ^ (52 - e0)) as Hsmall0.
  { split; [lia|]. specialize (Hcap e0 He0). lia. }
  destruct (shr_fexp_small _ _ He0 Hsmall0) as [He1 Hm1]. cbv zeta in *.
  destruct (shr_fexp prec emax (Z.pos mz) e0 loc_Exact) as [mrs1 e1]. cbn [fst snd] in *.
  destruct (floor_between (Zpos mz) e0 e1 T (T + 1) He1 Hlo0 Hhi0) as [Hlo1 Hhi1].
  rewrite <-Hm1 in Hlo1, Hhi1.
  assert (0 ≤ shr_m mrs1) as Hm1pos.
  { rewrite Hm1. apply Z.div_pos; [lia|]. apply Z.pow_pos_nonneg; lia. }
  (* the rounding *)
  pose proof (round_nearest_even_range (shr_m mrs1) (loc_of_shr_record mrs1)) as Hround.
  set (m2 := round_nearest_even _ _) in *.
  assert (-1074 ≤ e1 ≤ 0) as He1' by lia.
  assert (0 ≤ m2 ≤ 2 ^ (52 - e1)) as Hsmall2.
  { split; [lia|]. specialize (Hcap e1 He1'). lia. }
  (* the second shift *)
  destruct (shr_fexp_small _ _ He1' Hsmall2) as [He2 Hm3]. cbv zeta in *.
  destruct (shr_fexp prec emax m2 e1 loc_Exact) as [mrs2 e2]. cbn [fst snd] in *.
  assert (-1074 ≤ e2 ≤ 0) as He2' by lia.
  assert (T * 2 ^ (- e2) ≤ shr_m mrs2 ≤ (T + 1) * 2 ^ (- e2)) as [Hlo3 Hhi3].
  { destruct (floor_between m2 e1 e2 T (T + 1 + 1) He2) as [Hlo3 Hhi3]; [lia| |].
    { specialize (Hpos' e1 He1'). nia. }
    rewrite <-Hm3 in Hlo3, Hhi3. split; [done|].
    (* a multiple of the grid step that is at most the upper bound *)
    assert (2 ^ (- e1) = 2 ^ (e2 - e1) * 2 ^ (- e2)) as Heq.
    { rewrite <-pow2_split by lia. f_equal. lia. }
    assert (0 < 2 ^ (e2 - e1)) by (apply Z.pow_pos_nonneg; lia).
    rewrite Hm3. apply Z.div_le_upper_bound; [done|].
    rewrite Heq in Hhi1. specialize (Hpos' e2 He2'). nia. }
  destruct (shr_m mrs2) as [|m3|m3] eqn:Hm3'.
  - exists 0. split; [done|]. specialize (Hpos' e2 He2').
    assert (0 < 2 ^ 1074) by (apply Z.pow_pos_nonneg; lia). nia.
  - assert ((e2 <=? emax - prec) = true) as -> by (apply Z.leb_le; unfold emax, prec; lia).
    simpl SFunits. assert ((-1074 <=? e2) = true) as -> by (apply Z.leb_le; lia).
    eexists. split; [done|]. rewrite (Hunit e2 He2'). specialize (Hpos e2 He2').
    cbn [cond_Zopp]. nia.
  - specialize (Hpos' e2 He2'). nia.
Qed.

End rounding.

Section float_sums.
Local Open Scope Z_scope.

(** Numbers that are [===] have the same value. *)
Lemma eqb_units a b : PrimFloat.eqb a b = true → units a = units b.
Proof.
  unfold units. rewrite FloatAxioms.eqb_spec. unfold SFeqb.
  destruct (Prim2SF a) as [s1|s1| |s1 m1 e1], (Prim2SF b) as [s2|s2| |s2 m2 e2];
    simpl; try done; try (by destruct s1); try (by destruct s2).
  change (Pos.compare_cont Eq m1 m2) with (Pos.compare m1 m2).
  destruct s1, s2; try done;
    destruct (Z.compare_spec e1 e2) as [->|?|?]; try done;
    destruct (Pos.compare_spec m1 m2) as [->|?|?]; done.
Qed.

(** [t + r] for a whole number [0 <= t < 2^52] and [0 <= r < 1]: the sum is
    a number between [t] and [t + 1]. *)
Lemma add_between (t r : float) (T R : Z) :
  units t = Some (T * 2 ^ 1074) → 0 ≤ T → T + 1 ≤ 2 ^ 52 →
  units r = Some R → 0 ≤ R < 2 ^ 1074 →
  ∃ V, units (t + r)%float = Some V ∧ T * 2 ^ 1074 ≤ V ≤ (T + 1) * 2 ^ 1074.
Proof.
  unfold units. rewrite FloatAxioms.add_spec. unfold SF64add.
  intros Ht HT0 HT Hr HR.
  assert (0 < 2 ^ 1074) as Hone by (apply Z.pow_pos_nonneg; lia).
  destruct (Prim2SF t) as [st|st| |st mt et], (Prim2SF r) as [sr|sr| |sr mr er];
    simpl in Ht, Hr; try done.
  - exists 0. split; [by destruct st, sr|]. injection Ht as Ht.
    assert (T = 0) as -> by nia. lia.
  - exists R. split; [done|]. injection Ht as Ht.
    assert (T = 0) as -> by nia. lia.
  - exists (T * 2 ^ 1074). split; [done|]. lia.
  - destruct (Z.leb_spec (-1074) et) as [Het|]; [|done].
    destruct (Z.leb_spec (-1074) er) as [Her|]; [|done].
    injection Ht as Ht. injection Hr as Hr.
    assert (0 < 2 ^ (et + 1074)) by (apply Z.pow_pos_nonneg; lia).
    assert (0 < 2 ^ (er + 1074)) by (apply Z.pow_pos_nonneg; lia).
    destruct st; [simpl in Ht; nia|]. destruct sr; [simpl in Hr; nia|].
    cbn [cond_Zopp] in *.
    assert (er < 0) as Her0.
    { destruct (Z_lt_le_dec er 0); [done|].
      assert (2 ^ 1074 ≤ 2 ^ (er + 1074)) by (apply Z.pow_le_mono_r; lia). nia. }
    unfold SFadd. cbn [cond_Zopp].
    set (ez := Z.min et er).
    assert (-1074 ≤ ez ≤ 0) as Hez by lia.
    assert (∀ m e, ez ≤ e →
              Zpos (shl_align m e ez).1 * 2 ^ (ez + 1074) = Zpos m * 2 ^ (e + 1074)) as Halign.
    { intros m e He. unfold shl_align.
      destruct (ez - e) as [|d|d] eqn:Hd; cbn [fst].
      - by replace e with ez by lia.
      - lia.
      - rewrite pos_iter_xO. replace (e + 1074) with (Z.pos d + (ez + 1074)) by lia.
        rewrite (pow2_split (Z.pos d) (ez + 1074)) by lia. ring. }
    pose proof (Halign mt et ltac:(lia)) as Hmt.
    pose proof (Halign mr er ltac:(lia)) as Hmr.
    destruct (Z.pos (shl_align mt et ez).1 + Z.pos (shl_align mr er ez).1) as [|M|M] eqn:HM;
      [lia| |lia].
    unfold binary_normalize.
    apply (binary_round_between M ez T Hez HT0 HT).
    rewrite <-HM. nia.
Qed.

End float_sums.

(** ** Removal from the queue *)

Section removal.
Import StorageManager.

(** C7: [removeFromOfflineQueue(itemId)] for an id that no queued entry has
    resolves (it never rejects), leaves the queue as it was, and on a working
    store reports [success: true]. *)
Theorem removeFromOfflineQueue_absent_id itemId w :
  present itemId (queue_of w) = false →
  ∃ result,
    outcome (removeFromOfflineQueue itemId) w = Return result ∧
    queue_of (exec (removeFromOfflineQueue itemId) w) = queue_of w ∧
    (healthy w → success result = true).
Proof.
  intros Habsent%present_false_forallb%filter_all.
  unfold outcome, exec. rewrite removeFromOfflineQueue_eq. rewrite Habsent.
  destruct (verdict w) eqn:Hget; simpl.
  { eexists. split_and!; [done..|]. intros ?%healthy_verdict. congruence. }
  destruct (verdict (settle _ w)) eqn:Hset; simpl.
  { eexists. split_and!; [done..|].
    intros ?%(healthy_settle (StorageGet OFFLINE_QUEUE))%healthy_verdict. congruence. }
  eexists. split_and!; [done| |done].
  rewrite queue_of_set_local. by rewrite lookup_insert_eq.
Qed.

Lemma removeFromOfflineQueue_absent_id_witness :
  present 7%float (queue_of two_entries) = false ∧
  ∃ result,
    outcome (removeFromOfflineQueue 7%float) two_entries = Return result ∧
    queue_of (exec (removeFromOfflineQueue 7%float) two_entries) = queue_of two_entries ∧
    (healthy two_entries → success result = true).
Proof.
  split; [reflexivity|].
  apply (removeFromOfflineQueue_absent_id 7%float two_entries). reflexivity.
Defined.

(** On a working store, removal resolves to success and stores the filtered
    queue. *)
Lemma removeFromOfflineQueue_healthy itemId w :
  healthy w →
  outcome (removeFromOfflineQueue itemId) w = Return (mkResult true None None) ∧
  queue_of (exec (removeFromOfflineQueue itemId) w)
    = List.filter (λ item, Js.strict_ne (id item) itemId) (queue_of w) ∧
  healthy (exec (removeFromOfflineQueue itemId) w).
Proof.
  intros Hw. unfold outcome, exec. rewrite removeFromOfflineQueue_eq.
  pose proof (healthy_settle (StorageGet OFFLINE_QUEUE) _ Hw) as Hw1.
  rewrite (healthy_verdict _ Hw), (healthy_verdict _ Hw1). simpl.
  split_and!; [done| |].
  - rewrite queue_of_set_local. by rewrite lookup_insert_eq.
  - by apply healthy_set_local, healthy_settle.
Qed.

(** C10: on a working store [removeFromOfflineQueue(itemId)] reports success
    whether or not an entry matched; the queue it stores is the old one
    without every entry whose id is [===] to [itemId], the others kept as
    they were and in their order. *)
Theorem removeFromOfflineQueue_removes_every_match itemId w :
  healthy w →
  let w' := exec (removeFromOfflineQueue itemId) w in
  outcome (removeFromOfflineQueue itemId) w = Return (mkResult true None None) ∧
  queue_of w' = List.filter (λ item, Js.strict_ne (id item) itemId) (queue_of w) ∧
  (∀ item, item ∈ queue_of w' ↔ item ∈ queue_of w ∧ Js.strict_eq (id item) itemId = false) ∧
  sublist (queue_of w') (queue_of w).
Proof.
  intros Hw w'. destruct (removeFromOfflineQueue_healthy itemId w Hw) as (Hout & Hq & _).
  subst w'. rewrite Hq. split_and!; [done..| |apply filter_sublist].
  intros item. rewrite elem_of_filter_bool. unfold Js.strict_ne.
  by rewrite negb_true_iff.
Qed.

(** Both entries of a queue whose two ids coincide go in one removal. *)
Example removeFromOfflineQueue_removes_both_twins :
  let w := enqueue_all same_millisecond empty_world in
  map id (queue_of w) = [1700000000000.5%float; 1700000000000.5%float] ∧
  queue_of (exec (removeFromOfflineQueue 1700000000000.5%float) w) = [].
Proof. split; reflexivity. Qed.

Lemma removeFromOfflineQueue_removes_every_match_witness :
  let w' := exec (removeFromOfflineQueue 2.5%float) two_entries in
  outcome (removeFromOfflineQueue 2.5%float) two_entries = Return (mkResult true None None) ∧
  queue_of w' = List.filter (λ item, Js.strict_ne (id item) 2.5%float) (queue_of two_entries) ∧
  (∀ item, item ∈ queue_of w' ↔
           item ∈ queue_of two_entries ∧ Js.strict_eq (id item) 2.5%float = false) ∧
  sublist (queue_of w') (queue_of two_entries).
Proof.
  apply (removeFromOfflineQueue_removes_every_match 2.5%float two_entries).
  unfold healthy. simpl. constructor.
Defined.

End removal.

(** ** Enqueueing *)

Section enqueueing.
Import StorageManager.
Implicit Types (w : World) (items : list (BookmarkData * Readings)).

Lemma addToOfflineQueue_queue bookmarkData r w :
  queue_of (exec (addToOfflineQueue bookmarkData r) w) = queue_of w ∨
  queue_of (exec (addToOfflineQueue bookmarkData r) w)
    = queue_of w ++ [new_entry bookmarkData r].
Proof.
  unfold exec. rewrite addToOfflineQueue_eq.
  destruct (verdict w); [by left|].
  destruct (verdict (settle _ w)); [by left|]. right. simpl.
  rewrite queue_of_set_local. by rewrite lookup_insert_eq.
Qed.

Lemma addToOfflineQueue_healthy bookmarkData r w :
  healthy w →
  outcome (addToOfflineQueue bookmarkData r) w = Return (mkResult true None None) ∧
  queue_of (exec (addToOfflineQueue bookmarkData r) w)
    = queue_of w ++ [new_entry bookmarkData r] ∧
  healthy (exec (addToOfflineQueue bookmarkData r) w).
Proof.
  intros Hw. unfold outcome, exec. rewrite addToOfflineQueue_eq.
  pose proof (healthy_settle (StorageGet OFFLINE_QUEUE) _ Hw) as Hw1.
  rewrite (healthy_verdict _ Hw), (healthy_verdict _ Hw1). simpl.
  split_and!; [done| |].
  - rewrite queue_of_set_local. by rewrite lookup_insert_eq.
  - by apply healthy_set_local, healthy_settle.
Qed.

Lemma enqueue_all_cons bookmarkData r items w :
  enqueue_all ((bookmarkData, r) :: items) w
  = enqueue_all items (exec (addToOfflineQueue bookmarkData r) w).
Proof. reflexivity. Qed.

Lemma enqueue_all_healthy items w :
  healthy w →
  queue_of (enqueue_all items w) = queue_of w ++ new_entries items ∧
  healthy (enqueue_all items w).
Proof.
  revert w. induction items as [|[b r] items IH]; intros w Hw.
  { simpl. by rewrite app_nil_r. }
  rewrite enqueue_all_cons.
  destruct (addToOfflineQueue_healthy b r w Hw) as (_ & Hq & Hw').
  destruct (IH _ Hw') as [IHq IHw]. split; [|done].
  rewrite IHq, Hq. simpl. by rewrite <-app_assoc.
Qed.

Lemma enqueue_all_queue items w :
  ∃ kept, sublist kept (new_entries items) ∧
          queue_of (enqueue_all items w) = queue_of w ++ kept.
Proof.
  revert w. induction items as [|[b r] items IH]; intros w.
  { exists []. split; [constructor|]. simpl. by rewrite app_nil_r. }
  rewrite enqueue_all_cons.
  destruct (IH (exec (addToOfflineQueue b r) w)) as (kept & Hsub & Hq).
  rewrite Hq. simpl.
  destruct (addToOfflineQueue_queue b r w) as [-> | ->].
  - exists kept. split; [by constructor|done].
  - exists (new_entry b r :: kept). split; [by constructor|].
    by rewrite <-app_assoc.
Qed.

Lemma forallb_sublist {A} (f : A → bool) (l1 l2 : list A) :
  sublist l1 l2 → forallb f l2 = true → forallb f l1 = true.
Proof.
  induction 1 as [|x l1 l2 _ IH|x l1 l2 _ IH]; simpl; [done|..].
  - intros [-> ?]%andb_prop. by apply IH.
  - intros [_ ?]%andb_prop. by apply IH.
Qed.

Lemma unique_ids_sublist (q1 q2 : Queue) :
  sublist q1 q2 → unique_ids q2 = true → unique_ids q1 = true.
Proof.
  induction 1 as [|x l1 l2 Hsub IH|x l1 l2 _ IH]; simpl; [done|..].
  - intros [Hx ?]%andb_prop. rewrite IH by done.
    by rewrite (forallb_sublist _ _ _ Hsub Hx).
  - intros [_ ?]%andb_prop. by apply IH.
Qed.

Lemma unique_ids_lookup (q : Queue) i j a b :
  unique_ids q = true → q !! i = Some a → q !! j = Some b → i ≠ j →
  Js.strict_ne (id a) (id b) = true.
Proof.
  revert i j. induction q as [|e q IH]; intros i j; simpl; [done|].
  intros [He Hq]%andb_prop Hi Hj Hij.
  rewrite forallb_forall in He.
  destruct i as [|i], j as [|j]; simpl in *; simplify_eq.
  - apply list_elem_of_lookup_2, list_elem_of_In, He in Hj.
    by apply andb_prop in Hj as [? _].
  - apply list_elem_of_lookup_2, list_elem_of_In, He in Hi.
    by apply andb_prop in Hi as [_ ?].
  - eapply IH; eauto.
Qed.

Lemma clearOfflineQueue_queue w :
  queue_of (exec clearOfflineQueue w) = queue_of w ∨
  queue_of (exec clearOfflineQueue w) = [].
Proof.
  unfold exec, clearOfflineQueue, try_catch, bind, browserCompat.storage_local_remove.
  rewrite call_eq. destruct (verdict w); [by left|]. right. simpl.
  rewrite queue_of_set_local. by rewrite lookup_delete_eq.
Qed.

Lemma clearAll_queue w :
  queue_of (exec clearAll w) = queue_of w ∨ queue_of (exec clearAll w) = [].
Proof.
  unfold exec, clearAll, try_catch, bind, browserCompat.storage_local_clear.
  rewrite call_eq. destruct (verdict w); [by left|]. by right.
Qed.

(** C6, amended: (1) after any sequence of enqueues on a working store,
    [getOfflineQueue] returns the entries that were there followed by the
    enqueued ones in the order of the calls; (2) a method of the storage
    manager leaves the queue as it was, or appends the new entry after the
    others, or keeps exactly the entries whose id differs from the removed
    id, as they were and in their order, or (the two clearing methods)
    removes every entry. *)
Theorem queue_keeps_insertion_order :
  (∀ items w, healthy w →
     outcome getOfflineQueue (enqueue_all items w)
       = Return (mkResult true None (Some (queue_of w ++ new_entries items)))) ∧
  (∀ op w,
     let q := queue_of w in
     let q' := queue_of (exec (run_op op) w) in
     q' = q ∨
     (∃ bookmarkData r, op = Enqueue bookmarkData r ∧ q' = q ++ [new_entry bookmarkData r]) ∨
     (∃ itemId, op = Remove itemId ∧
                q' = List.filter (λ item, Js.strict_ne (id item) itemId) q) ∨
     ((op = Clear ∨ op = ClearAll) ∧ q' = [])).
Proof.
  split.
  - intros items w Hw. destruct (enqueue_all_healthy items w Hw) as [Hq Hw'].
    unfold outcome. rewrite getOfflineQueue_eq. simpl.
    by rewrite (healthy_verdict _ Hw'), Hq.
  - intros [b r| |itemId| |] w; simpl.
    + destruct (addToOfflineQueue_queue b r w) as [H|H]; [by left|].
      right; left. eauto.
    + left. unfold exec. by rewrite getOfflineQueue_eq.
    + unfold exec. rewrite removeFromOfflineQueue_eq.
      destruct (verdict w); [by left|].
      destruct (verdict (settle _ w)); [by left|].
      right; right; left. exists itemId. split; [done|]. simpl.
      rewrite queue_of_set_local. by rewrite lookup_insert_eq.
    + destruct (clearOfflineQueue_queue w) as [H|H]; [by left|].
      right; right; right. auto.
    + destruct (clearAll_queue w) as [H|H]; [by left|].
      right; right; right. auto.
Qed.

(** Whatever the store does, the queue after the enqueues holds the old
    entries and some of the new ones. *)
Lemma enqueue_all_unique_ids items w :
  unique_ids (queue_of w ++ new_entries items) = true →
  unique_ids (queue_of (enqueue_all items w)) = true.
Proof.
  intros Huniq. destruct (enqueue_all_queue items w) as (kept & Hsub & ->).
  eapply unique_ids_sublist; [|done]. by apply sublist_app.
Qed.

Lemma unique_ids_pairwise (q : Queue) :
  (∀ i j a b, i < j → q !! i = Some a → q !! j = Some b →
              Js.strict_ne (id a) (id b) = true ∧ Js.strict_ne (id b) (id a) = true) →
  unique_ids q = true.
Proof.
  induction q as [|e q IH]; intros Hq; [done|]. simpl. apply andb_true_intro. split.
  - apply forallb_forall. intros x [j Hj]%list_elem_of_In%list_elem_of_lookup_1.
    assert (0 < S j) as Hlt by lia.
    by destruct (Hq 0 (S j) e x Hlt eq_refl Hj) as [-> ->].
  - apply IH. intros i j a b Hij Ha Hb. apply (Hq (S i) (S j)); [lia|done..].
Qed.

Lemma apart_lookup ts i j a b :
  apart ts = true → i < j → ts !! i = Some a → ts !! j = Some b →
  (a + 2 ≤ b ∨ b + 2 ≤ a)%Z.
Proof.
  revert i j. induction ts as [|t ts IH]; intros i j; simpl; [done|].
  intros [Ht Hts]%andb_prop Hij Ha Hb.
  destruct i as [|i], j as [|j]; simpl in *; simplify_eq; try lia.
  - rewrite forallb_forall in Ht.
    apply list_elem_of_lookup_2, list_elem_of_In, Ht in Hb.
    apply orb_prop in Hb as [Hb|Hb]; apply Z.leb_le in Hb; lia.
  - apply (IH i j); [done|lia|done..].
Qed.

Lemma clock_lookup items ts k item :
  map (λ item, clock item.2) items = map Some ts →
  items !! k = Some item →
  ∃ t, ts !! k = Some t ∧ clock item.2 = Some t.
Proof.
  revert ts k. induction items as [|x items IH]; intros [|t ts] k; simpl; try done.
  intros [= Hx Hrest]. destruct k as [|k]; simpl.
  - intros [= <-]. by exists t.
  - by apply IH.
Qed.

Lemma new_entries_lookup items k e :
  new_entries items !! k = Some e →
  ∃ item, items !! k = Some item ∧ e = new_entry item.1 item.2.
Proof.
  revert k. induction items as [|x items IH]; intros [|k]; simpl; try done.
  - intros [= <-]. by exists x.
  - apply IH.
Qed.

(** The id an enqueue at millisecond [t] computes is a number from [t] to
    [t + 1]. *)
Lemma clock_id bookmarkData r t :
  clock r = Some t →
  ∃ V, units (id (new_entry bookmarkData r)) = Some V ∧
       (t * 2 ^ 1074 ≤ V ≤ (t + 1) * 2 ^ 1074)%Z.
Proof.
  unfold clock, whole, fraction. simpl id.
  destruct (units (Date_now_1 r)) as [v|] eqn:Hnow; [|done].
  destruct (Z.eqb_spec (v mod 2 ^ 1074) 0) as [Hmod|]; [|done].
  destruct (units (Math_random r)) as [R|] eqn:Hrandom;
    [|by rewrite andb_false_r].
  destruct (Z.leb_spec 0 (v / 2 ^ 1074)); [|done].
  destruct (Z.leb_spec (v / 2 ^ 1074 + 1) (2 ^ 52)); [|done].
  destruct (Z.leb_spec 0 R); [|done].
  destruct (Z.ltb_spec R (2 ^ 1074)); [|done].
  intros [= <-].
  apply (add_between _ _ _ R); [|done..].
  rewrite Hnow. f_equal.
  assert (0 < 2 ^ 1074)%Z by (apply Z.pow_pos_nonneg; lia).
  rewrite (Z.div_mod v (2 ^ 1074)) at 1 by lia. lia.
Qed.

(** Numbers of different values are not [===]. *)
Lemma strict_ne_units a b :
  units a ≠ units b →
  Js.strict_ne a b = true ∧ Js.strict_ne b a = true.
Proof.
  intros Hne. unfold Js.strict_ne, Js.strict_eq.
  split; apply negb_true_iff, not_true_is_false; intros Heq%eqb_units; congruence.
Qed.

(** C9, amended: after any sequence of enqueues no two queued entries have
    the same id, whatever [Math.random()] returns and whatever the store
    does, provided the clock readings [Date.now()] of the enqueues are whole
    milliseconds below 2^52 any two of which are at least 2 apart, the
    random numbers are from 0 to below 1, and the ids already queued are
    pairwise different and none of them is a number from [t] to [t + 1] for
    a reading [t]. The id is the binary64 sum [Date.now() + Math.random()],
    a number from [t] to [t + 1]. *)
Theorem ids_unique_when_clock_readings_are_apart items ts w :
  map (λ item, clock item.2) items = map Some ts →
  apart ts = true →
  unique_ids (queue_of w) = true →
  forallb (λ e, forallb (outside (id e)) ts) (queue_of w) = true →
  unique_ids (queue_of (enqueue_all items w)) = true.
Proof.
  intros Hclock Hapart Huniq Hout. apply enqueue_all_unique_ids, unique_ids_pairwise.
  assert (∀ k e, new_entries items !! k = Some e →
            ∃ t V, ts !! k = Some t ∧ units (id e) = Some V ∧
                   (t * 2 ^ 1074 ≤ V ≤ (t + 1) * 2 ^ 1074)%Z) as Hnew.
  { intros k e (item & Hitem & ->)%new_entries_lookup.
    destruct (clock_lookup _ _ _ _ Hclock Hitem) as (t & Ht & Hc).
    destruct (clock_id item.1 item.2 t Hc) as (V & HV & Hbounds). eauto. }
  assert (0 < 2 ^ 1074)%Z as Hone by (apply Z.pow_pos_nonneg; lia).
  intros i j a b Hij Ha Hb.
  apply lookup_app_Some in Ha as [Ha|[Hi Ha]], Hb as [Hb|[Hj Hb]].
  - split; eapply unique_ids_lookup; eauto; lia.
  - destruct (Hnew _ _ Hb) as (t & V & Ht & HV & Hbounds).
    rewrite forallb_forall in Hout.
    apply list_elem_of_lookup_2, list_elem_of_In, Hout in Ha.
    rewrite forallb_forall in Ha.
    apply list_elem_of_lookup_2, list_elem_of_In, Ha in Ht.
    apply strict_ne_units. unfold outside in Ht. rewrite HV.
    destruct (units (id a)) as [v|]; [|done]. intros [= ->].
    apply orb_prop in Ht as [Ht|Ht]; apply Z.ltb_lt in Ht; lia.
  - apply lookup_lt_Some in Hb. lia.
  - destruct (Hnew _ _ Ha) as (ta & Va & Hta & HVa & Hbounds_a).
    destruct (Hnew _ _ Hb) as (tb & Vb & Htb & HVb & Hbounds_b).
    apply strict_ne_units. rewrite HVa, HVb. intros [= ->].
    assert (i - length (queue_of w) < j - length (queue_of w)) as Hlt by lia.
    destruct (apart_lookup ts _ _ ta tb Hapart Hlt Hta Htb); nia.
Qed.

End enqueueing.

(** ** Runs that submit nothing and notify nobody *)

Section quiet_facts.
Implicit Types (w : World) (e : Event).

Lemma submitted_snoc tr e :
  submitted (tr ++ [e])
  = submitted tr ++ match e with CreateBookmark item => [item] | _ => [] end.
Proof. unfold submitted. rewrite omap_app. by destruct e. Qed.

Lemma notifications_snoc tr e :
  notifications (tr ++ [e])
  = notifications tr ++ match e with Notify _ title text => [(title, text)] | _ => [] end.
Proof. unfold notifications. rewrite omap_app. by destruct e. Qed.

Lemma quiet_refl w : quiet w w.
Proof. done. Qed.

Lemma quiet_trans w1 w2 w3 : quiet w1 w2 → quiet w2 w3 → quiet w1 w3.
Proof. intros (?&?&?) (?&?&?). split_and!; congruence. Qed.

Lemma quiet_emit e w : silent e = true → quiet w (emit e w).
Proof.
  intros He. split_and!; [done|..]; simpl.
  - rewrite submitted_snoc. destruct e; try done; by rewrite app_nil_r.
  - rewrite notifications_snoc. destruct e; try done; by rewrite app_nil_r.
Qed.

Lemma quiet_settle e w : silent e = true → quiet w (settle e w).
Proof. intros He. by apply (quiet_emit e w) in He. Qed.

Lemma quiet_set_local m w : quiet w (set_local m w).
Proof. done. Qed.

Lemma submitted_logged lines w : submitted (trace (logged lines w)) = submitted (trace w).
Proof.
  rewrite logged_eq. simpl. unfold submitted. rewrite omap_app.
  rewrite <-(app_nil_r (omap _ (trace w))) at 2. f_equal.
  by induction lines.
Qed.

Lemma notifications_logged lines w :
  notifications (trace (logged lines w)) = notifications (trace w).
Proof.
  rewrite logged_eq. simpl. unfold notifications. rewrite omap_app.
  rewrite <-(app_nil_r (omap _ (trace w))) at 2. f_equal.
  by induction lines.
Qed.

Lemma quiet_logged lines w : quiet w (logged lines w).
Proof.
  split_and!; [by rewrite logged_eq|apply submitted_logged|apply notifications_logged].
Qed.

End quiet_facts.

(** ** The reconciler *)

Section reconciler.
Import StorageManager TurbodocBackground.
Implicit Types (api : Api) (w : World) (q : Queue) (item : QueueEntry).

Lemma removeFromOfflineQueue_quiet itemId w :
  quiet w (exec (removeFromOfflineQueue itemId) w).
Proof.
  unfold exec. rewrite removeFromOfflineQueue_eq.
  destruct (verdict w); simpl; [by apply quiet_settle|].
  eapply quiet_trans; [by apply (quiet_settle (StorageGet OFFLINE_QUEUE))|].
  destruct (verdict _); simpl; [by apply quiet_settle|].
  eapply quiet_trans; [|apply quiet_set_local]. by apply quiet_settle.
Qed.

Lemma removeFromOfflineQueue_keeps itemId w K :
  K ∈ queue_of w → Js.strict_ne (id K) itemId = true →
  K ∈ queue_of (exec (removeFromOfflineQueue itemId) w).
Proof.
  intros HK Hne. unfold exec. rewrite removeFromOfflineQueue_eq.
  destruct (verdict w); [done|]. destruct (verdict _); [done|]. simpl.
  rewrite queue_of_set_local, lookup_insert_eq. simpl.
  by apply elem_of_filter_bool.
Qed.

Lemma process_item_eq api k item p f w :
  process_item api k item (p, f) w =
  let w1 := logged (api_console api k item) (emit (CreateBookmark item) w) in
  match api_createBookmark api k item with
  | Resolved result =>
      if api_success result
      then (Return (S p, f), exec (removeFromOfflineQueue (id item)) w1)
      else (Return (p, S f), w1)
  | Rejected _ =>
      (Return (p, S f), emit (Console Err "Failed to process offline item:") w1)
  end.
Proof.
  unfold process_item, try_catch, bind.
  destruct (api_createBookmark api k item) as [result|e]; [|done].
  destruct (api_success result); [|done].
  unfold exec. rewrite removeFromOfflineQueue_eq. cbn zeta.
  destruct (verdict _); [done|]. by destruct (verdict _).
Qed.

Lemma for_of_queue_cons api k item q c w :
  for_of_queue api k (item :: q) c w
  = for_of_queue api (S k) q
      (if replay_ok (api_createBookmark api k item) then (S c.1, c.2) else (c.1, S c.2))
      (exec (process_item api k item c) w).
Proof.
  destruct c as [p f].
  change (for_of_queue api k (item :: q) (p, f) w)
    with (bind (process_item api k item (p, f)) (for_of_queue api (S k) q) w).
  unfold bind, exec. rewrite process_item_eq. cbn zeta.
  destruct (api_createBookmark api k item) as [result|e]; simpl; [|done].
  by destruct (api_success result).
Qed.

Lemma exec_for_of_queue_cons api k item q c w :
  exec (for_of_queue api k (item :: q) c) w
  = exec (for_of_queue api (S k) q
            (if replay_ok (api_createBookmark api k item) then (S c.1, c.2) else (c.1, S c.2)))
      (exec (process_item api k item c) w).
Proof. unfold exec at 1 2. by rewrite for_of_queue_cons. Qed.

Lemma exec_process_item api k item c w :
  exec (process_item api k item c) w =
  let w1 := logged (api_console api k item) (emit (CreateBookmark item) w) in
  match api_createBookmark api k item with
  | Resolved result =>
      if api_success result then exec (removeFromOfflineQueue (id item)) w1 else w1
  | Rejected _ => emit (Console Err "Failed to process offline item:") w1
  end.
Proof.
  destruct c as [p f]. unfold exec at 1. rewrite process_item_eq. cbn zeta.
  destruct (api_createBookmark api k item) as [result|e]; [|done].
  by destruct (api_success result).
Qed.

(** The loop never throws, and its counters are the tally of the replays. *)
Lemma for_of_queue_outcome api q k p f w :
  outcome (for_of_queue api k q (p, f)) w
  = Return (p + (tally api k q).1, f + (tally api k q).2).
Proof.
  revert k p f w. induction q as [|item q IH]; intros k p f w.
  { unfold outcome. simpl. by rewrite !Nat.add_0_r. }
  unfold outcome in *. rewrite for_of_queue_cons. simpl.
  destruct (tally api (S k) q) as [p' f'] eqn:Htally.
  destruct (replay_ok _); rewrite IH, Htally; simpl; f_equal; f_equal; lia.
Qed.

(** Every item of the snapshot is submitted once, in order, whatever the
    replays and the store do; nothing else is submitted and nobody is
    notified during the loop. *)
Lemma for_of_queue_trace api q k c w :
  let w' := exec (for_of_queue api k q c) w in
  chrome_notifications w' = chrome_notifications w ∧
  submitted (trace w') = submitted (trace w) ++ q ∧
  notifications (trace w') = notifications (trace w).
Proof.
  revert k c w. induction q as [|item q IH]; intros k c w; cbn zeta.
  { unfold exec. simpl. by rewrite app_nil_r. }
  rewrite exec_for_of_queue_cons.
  destruct (IH (S k)
    (if replay_ok (api_createBookmark api k item) then (S c.1, c.2) else (c.1, S c.2))
    (exec (process_item api k item c) w)) as (-> & -> & ->).
  clear IH. rewrite exec_process_item. cbn zeta.
  assert (∀ w', quiet (emit (CreateBookmark item) w) w' →
    chrome_notifications w' = chrome_notifications w ∧
    submitted (trace w') ++ q = submitted (trace w) ++ item :: q ∧
    notifications (trace w') = notifications (trace w)) as Hquiet.
  { intros w' (-> & -> & ->). simpl.
    rewrite submitted_snoc, notifications_snoc, app_nil_r.
    by rewrite <-app_assoc. }
  destruct (api_createBookmark api k item) as [result|e].
  - destruct (api_success result).
    + apply Hquiet. eapply quiet_trans; [apply quiet_logged|].
      apply removeFromOfflineQueue_quiet.
    + apply Hquiet, quiet_logged.
  - apply Hquiet. eapply quiet_trans; [apply quiet_logged|]. by apply quiet_emit.
Qed.

(** An entry stays queued through the loop unless an item with the same id
    is replayed successfully. *)
Lemma for_of_queue_keeps api K q k c w :
  K ∈ queue_of w →
  (∀ j item, q !! j = Some item →
             replay_ok (api_createBookmark api (k + j) item) = true →
             Js.strict_ne (id K) (id item) = true) →
  K ∈ queue_of (exec (for_of_queue api k q c) w).
Proof.
  revert k c w. induction q as [|item q IH]; intros k c w HK Hne; [done|].
  rewrite exec_for_of_queue_cons. apply IH.
  - rewrite exec_process_item. cbn zeta.
    pose proof (Hne 0 item eq_refl) as H0. rewrite Nat.add_0_r in H0.
    destruct (api_createBookmark api k item) as [result|e]; simpl in H0;
      [|by rewrite queue_of_emit, queue_of_logged].
    destruct (api_success result); [|by rewrite queue_of_logged].
    apply removeFromOfflineQueue_keeps; [by rewrite queue_of_logged|]. by apply H0.
  - intros j item' Hj Hok. apply (Hne (S j) item' Hj).
    by rewrite <-Nat.add_succ_comm.
Qed.

(** On a working store the loop leaves exactly the entries whose id differs
    from every acknowledged id. *)
Lemma for_of_queue_healthy api q k c w :
  healthy w →
  let w' := exec (for_of_queue api k q c) w in
  queue_of w'
    = List.filter (λ e, forallb (λ i, Js.strict_ne (id e) i) (acknowledged api k q))
        (queue_of w) ∧
  healthy w'.
Proof.
  revert k c w. induction q as [|item q IH]; intros k c w Hw; cbn zeta.
  { unfold exec. simpl. split; [|done]. symmetry. by apply filter_all, forallb_forall. }
  rewrite exec_for_of_queue_cons, exec_process_item. cbn zeta. simpl acknowledged.
  destruct (api_createBookmark api k item) as [result|e]; simpl replay_ok.
  - destruct (api_success result); cbn iota.
    + destruct (removeFromOfflineQueue_healthy (id item)
                  (logged (api_console api k item) (emit (CreateBookmark item) w)))
        as (_ & Hq & Hw'); [by apply healthy_logged, healthy_emit|].
      destruct (IH (S k) (S c.1, c.2) _ Hw') as [-> ?]. split; [|done].
      by rewrite Hq, queue_of_logged, filter_filter.
    + destruct (IH (S k) (c.1, S c.2)
                  (logged (api_console api k item) (emit (CreateBookmark item) w)))
        as [-> ?]; [by apply healthy_logged, healthy_emit|].
      by rewrite queue_of_logged.
  - destruct (IH (S k) (c.1, S c.2)
                (emit (Console Err "Failed to process offline item:")
                   (logged (api_console api k item) (emit (CreateBookmark item) w))))
      as [-> ?]; [by apply healthy_emit, healthy_logged, healthy_emit|].
    by rewrite queue_of_emit, queue_of_logged.
Qed.

Ltac solve_quiet :=
  unfold quiet; simpl;
  rewrite ?submitted_snoc, ?notifications_snoc; simpl;
  rewrite ?app_nil_r; done.

(** [updateBadge] never throws, leaves the store alone, submits nothing and
    shows no notification. *)
Lemma updateBadge_spec api w :
  ∃ w', updateBadge api w = (Return tt, w') ∧ local w' = local w ∧ quiet w w'.
Proof.
  unfold updateBadge, try_catch, bind, console,
    browserCompat.action_setBadgeText, browserCompat.action_setBadgeBackgroundColor.
  destruct (api_isAuthenticated api); simpl.
  - rewrite getOfflineQueue_eq.
    destruct (verdict w); simpl.
    + rewrite call_eq. destruct (verdict _); eexists; (split_and!; [done|done|solve_quiet]).
    + destruct (0 <? length (queue_of w)).
      * rewrite call_eq. destruct (verdict _).
        { eexists; (split_and!; [done|done|solve_quiet]). }
        rewrite call_eq. destruct (verdict _);
          eexists; (split_and!; [done|done|solve_quiet]).
      * rewrite call_eq. destruct (verdict _); eexists; (split_and!; [done|done|solve_quiet]).
  - rewrite call_eq. destruct (verdict _); eexists; (split_and!; [done|done|solve_quiet]).
Qed.

(** The report never throws, touches neither the store nor the API, and
    shows the aggregate notification when more than one replay succeeded. *)
Lemma report_spec api p f w :
  ∃ w3,
    report api (p, f) w = (Return tt, w3) ∧
    local w3 = local w ∧
    submitted (trace w3) = submitted (trace w) ∧
    notifications (trace w3)
      = notifications (trace w)
        ++ (if 1 <? p then [("Sync Complete", pretty p +:+ " offline bookmarks synced")]
            else []).
Proof.
  assert (∀ w', (if 0 <? f
                 then console Warn ("Failed to process " +:+ pretty f +:+ " offline bookmarks")
                 else ret tt) w'
          = (Return tt, if 0 <? f
                        then emit (Console Warn ("Failed to process " +:+ pretty f
                                                 +:+ " offline bookmarks")) w'
                        else w')) as Hwarn.
  { intros w'. by destruct (0 <? f). }
  unfold report, bind.
  destruct (0 <? p) eqn:Hp.
  - unfold console at 1.
    destruct (updateBadge_spec api
      (emit (Console Log ("Processed " +:+ pretty p +:+ " offline bookmarks")) w))
      as (w' & -> & Hlocal & Hchrome & Hsub & Hnot).
    destruct (1 <? p).
    + unfold showNotification.
      destruct (chrome_notifications w'); rewrite Hwarn;
        (eexists; split; [reflexivity|]);
        destruct (0 <? f); simpl;
        rewrite ?submitted_snoc, ?notifications_snoc, ?app_nil_r, ?Hsub, ?Hnot, ?Hlocal; simpl;
        rewrite ?submitted_snoc, ?notifications_snoc, ?app_nil_r; simpl;
        rewrite ?app_nil_r; done.
    + unfold ret at 1. rewrite Hwarn.
      eexists. split; [reflexivity|].
      destruct (0 <? f); simpl;
        rewrite ?submitted_snoc, ?notifications_snoc, ?app_nil_r, ?Hsub, ?Hnot, ?Hlocal; simpl;
        rewrite ?submitted_snoc, ?notifications_snoc, ?app_nil_r; simpl;
        rewrite ?app_nil_r; done.
  - assert ((1 <? p) = false) as -> by (apply Nat.ltb_ge; apply Nat.ltb_ge in Hp; lia).
    unfold ret at 1. rewrite Hwarn.
    eexists. split; [reflexivity|].
    destruct (0 <? f); simpl;
      rewrite ?submitted_snoc, ?notifications_snoc, ?app_nil_r; done.
Qed.

(** A pass over a snapshot that could be read and is not empty is the loop
    over the snapshot followed by the report on the tally. *)
Lemma processOfflineQueue_pass api w :
  api_isAuthenticated api = true → verdict w = false → queue_of w ≠ [] →
  processOfflineQueue api w
  = report api (tally api 0 (queue_of w))
      (exec (for_of_queue api 0 (queue_of w) (0, 0)) (settle (StorageGet OFFLINE_QUEUE) w)).
Proof.
  intros Hauth Hread Hne.
  unfold processOfflineQueue. rewrite Hauth. cbn [negb].
  unfold try_catch, bind. rewrite getOfflineQueue_eq, Hread.
  cbn [success data default from_option Datatypes.id negb orb].
  destruct (queue_of w) as [|item q] eqn:Hq; [done|]. cbn [length Nat.eqb].
  pose proof (for_of_queue_outcome api (item :: q) 0 0 0
                (settle (StorageGet OFFLINE_QUEUE) w)) as Hout.
  unfold outcome, exec in *.
  destruct (for_of_queue api 0 (item :: q) (0, 0) _) as [c w2].
  cbn [fst snd] in *. subst c. cbn [Nat.add].
  destruct (tally api 0 (item :: q)) as [p f]. cbn [fst snd].
  by destruct (report_spec api p f w2) as (w3 & -> & _).
Qed.

End reconciler.

(** ** A reconciliation pass *)

Section pass.
Import StorageManager TurbodocBackground.
Implicit Types (api : Api) (w : World) (q : Queue).

(** With nothing to replay, a pass of a signed-in client is the snapshot
    read and nothing else. *)
Lemma processOfflineQueue_idle api w :
  api_isAuthenticated api = true →
  verdict w = true ∨ queue_of w = [] →
  processOfflineQueue api w = (Return tt, settle (StorageGet OFFLINE_QUEUE) w).
Proof.
  intros Hauth Hidle. unfold processOfflineQueue. rewrite Hauth. cbn [negb].
  unfold try_catch, bind. rewrite getOfflineQueue_eq.
  destruct (verdict w); [done|]. destruct Hidle as [?| ->]; done.
Qed.

Lemma processOfflineQueue_signed_out api w :
  api_isAuthenticated api = false →
  processOfflineQueue api w = (Return tt, w).
Proof. intros Hauth. unfold processOfflineQueue. by rewrite Hauth. Qed.

(** C3: while [isAuthenticated()] is false a pass returns at once, without
    throwing, and the world is as before: the store was neither read nor
    written, nothing was submitted, no call was issued at all. *)
Theorem processOfflineQueue_unauthenticated api w :
  api_isAuthenticated api = false →
  outcome (processOfflineQueue api) w = Return tt ∧
  exec (processOfflineQueue api) w = w.
Proof.
  intros Hauth. unfold outcome, exec.
  by rewrite processOfflineQueue_signed_out.
Qed.

Lemma processOfflineQueue_unauthenticated_witness :
  let api := TurbodocAPI.client signed_out always_created in
  let w := enqueue_all later_enqueues empty_world in
  api_isAuthenticated api = false ∧
  outcome (processOfflineQueue api) w = Return tt ∧
  exec (processOfflineQueue api) w = w.
Proof.
  split; [reflexivity|].
  apply (processOfflineQueue_unauthenticated
           (TurbodocAPI.client signed_out always_created)
           (enqueue_all later_enqueues empty_world)).
  reflexivity.
Defined.

(** C8: when the snapshot cannot be read or is empty, a pass does not throw
    and leaves the store as it is; the only call it makes is the snapshot
    read (none at all when signed out), so nothing is submitted, no removal
    is attempted, the badge is not touched and nothing is shown. *)
Theorem processOfflineQueue_nothing_to_do api w :
  verdict w = true ∨ queue_of w = [] →
  let w' := exec (processOfflineQueue api) w in
  outcome (processOfflineQueue api) w = Return tt ∧
  local w' = local w ∧
  trace w' = trace w ++ (if api_isAuthenticated api then [StorageGet OFFLINE_QUEUE] else []).
Proof.
  intros Hidle w'. subst w'. unfold outcome, exec.
  destruct (api_isAuthenticated api) eqn:Hauth.
  - by rewrite processOfflineQueue_idle.
  - rewrite processOfflineQueue_signed_out by done. simpl. by rewrite app_nil_r.
Qed.

Lemma processOfflineQueue_nothing_to_do_witness :
  let api := TurbodocAPI.client signed_in always_created in
  let w' := exec (processOfflineQueue api) empty_world in
  (verdict empty_world = true ∨ queue_of empty_world = []) ∧
  outcome (processOfflineQueue api) empty_world = Return tt ∧
  local w' = local empty_world ∧
  trace w' = trace empty_world
             ++ (if api_isAuthenticated api then [StorageGet OFFLINE_QUEUE] else []).
Proof.
  split; [right; reflexivity|].
  apply (processOfflineQueue_nothing_to_do
           (TurbodocAPI.client signed_in always_created) empty_world).
  right. reflexivity.
Defined.

(** C1, amended: a pass of a signed-in client over a snapshot it could read
    and whose ids are pairwise different does not throw, submits every entry
    of the snapshot once and in queue order whatever the replays come to, and
    every entry whose replay did not succeed is still queued afterwards. *)
Theorem processOfflineQueue_continues_past_failures api w :
  api_isAuthenticated api = true →
  verdict w = false →
  unique_ids (queue_of w) = true →
  let w' := exec (processOfflineQueue api) w in
  outcome (processOfflineQueue api) w = Return tt ∧
  submitted (trace w') = submitted (trace w) ++ queue_of w ∧
  ∀ k K, queue_of w !! k = Some K →
         replay_ok (api_createBookmark api k K) = false →
         K ∈ queue_of w'.
Proof.
  intros Hauth Hread Huniq w'. subst w'. unfold outcome, exec.
  destruct (decide (queue_of w = [])) as [Hempty|Hne].
  { rewrite processOfflineQueue_idle by auto. rewrite Hempty. simpl.
    split_and!; [done|by rewrite submitted_snoc, !app_nil_r|done]. }
  rewrite processOfflineQueue_pass by done.
  destruct (tally api 0 (queue_of w)) as [p f].
  destruct (report_spec api p f
              (exec (for_of_queue api 0 (queue_of w) (0, 0))
                    (settle (StorageGet OFFLINE_QUEUE) w)))
    as (w3 & -> & Hlocal & Hsub & _).
  simpl. split_and!; [done|..].
  - rewrite Hsub.
    destruct (for_of_queue_trace api (queue_of w) 0 (0, 0)
                (settle (StorageGet OFFLINE_QUEUE) w)) as (_ & -> & _).
    simpl. by rewrite submitted_snoc, app_nil_r.
  - intros k K HK Hfail. unfold queue_of at 1. rewrite Hlocal.
    apply (for_of_queue_keeps api K); [by eapply list_elem_of_lookup_2|].
    intros j item Hj Hok. simpl in Hok.
    eapply unique_ids_lookup; [done..|]. intros ->. congruence.
Qed.

Lemma processOfflineQueue_continues_past_failures_witness :
  let api := TurbodocAPI.client signed_in server_error_then_created in
  let w := enqueue_all later_enqueues empty_world in
  let w' := exec (processOfflineQueue api) w in
  outcome (processOfflineQueue api) w = Return tt ∧
  submitted (trace w') = submitted (trace w) ++ queue_of w ∧
  ∀ k K, queue_of w !! k = Some K →
         replay_ok (api_createBookmark api k K) = false →
         K ∈ queue_of w'.
Proof.
  apply (processOfflineQueue_continues_past_failures
           (TurbodocAPI.client signed_in server_error_then_created)
           (enqueue_all later_enqueues empty_world)); reflexivity.
Defined.

Lemma tally_all_ok api q k :
  (∀ j item, q !! j = Some item → replay_ok (api_createBookmark api (k + j) item) = true) →
  tally api k q = (length q, 0) ∧ acknowledged api k q = map id q.
Proof.
  revert k. induction q as [|item q IH]; intros k Hok; [done|]. simpl.
  pose proof (Hok 0 item eq_refl) as H0. rewrite Nat.add_0_r in H0. rewrite H0.
  destruct (IH (S k)) as [-> ->]; [|done].
  intros j item' Hj. rewrite Nat.add_succ_comm. by apply (Hok (S j)).
Qed.

Lemma all_acknowledged q :
  ids_are_numbers q →
  List.filter (λ e, forallb (λ i, Js.strict_ne (id e) i) (map id q)) q = [].
Proof.
  intros Hnum. apply filter_none, forallb_forall. intros e He%list_elem_of_In.
  apply negb_true_iff, not_true_is_false. intros Hall.
  rewrite forallb_forall in Hall.
  specialize (Hall (id e)). unfold Js.strict_ne in Hall.
  unfold ids_are_numbers in Hnum. rewrite Forall_forall in Hnum.
  rewrite (Hnum e He) in Hall. simpl in Hall.
  assert (false = true) by (apply Hall, in_map_iff; exists e; by rewrite <-list_elem_of_In).
  done.
Qed.

(** C2: when the replay of every queued entry succeeds, a pass of a
    signed-in client on a working store (whose ids are numbers) leaves the
    queue empty, and it shows one notification, the aggregate one, when the
    queue held more than one entry, and none otherwise. *)
Theorem processOfflineQueue_all_succeed api w :
  api_isAuthenticated api = true →
  healthy w →
  ids_are_numbers (queue_of w) →
  (∀ k item, queue_of w !! k = Some item →
             replay_ok (api_createBookmark api k item) = true) →
  let w' := exec (processOfflineQueue api) w in
  let n := length (queue_of w) in
  queue_of w' = [] ∧
  notifications (trace w')
    = notifications (trace w)
      ++ (if 1 <? n then [("Sync Complete", pretty n +:+ " offline bookmarks synced")]
          else []).
Proof.
  intros Hauth Hw Hnum Hok w' n. subst w' n. unfold exec.
  destruct (decide (queue_of w = [])) as [Hempty|Hne].
  { rewrite processOfflineQueue_idle by auto. rewrite Hempty. simpl.
    split; [done|]. by rewrite notifications_snoc. }
  rewrite processOfflineQueue_pass by auto using healthy_verdict.
  destruct (tally_all_ok api (queue_of w) 0) as [Htally Hack]; [done|].
  rewrite Htally.
  destruct (report_spec api (length (queue_of w)) 0
              (exec (for_of_queue api 0 (queue_of w) (0, 0))
                    (settle (StorageGet OFFLINE_QUEUE) w)))
    as (w3 & -> & Hlocal & _ & Hnot).
  simpl. rewrite Hnot. unfold queue_of at 1. rewrite Hlocal.
  destruct (for_of_queue_healthy api (queue_of w) 0 (0, 0)
              (settle (StorageGet OFFLINE_QUEUE) w)) as [Hq _].
  { by apply healthy_settle. }
  destruct (for_of_queue_trace api (queue_of w) 0 (0, 0)
              (settle (StorageGet OFFLINE_QUEUE) w)) as (_ & _ & Hquiet).
  split.
  - unfold queue_of at 1 in Hq. rewrite Hq, Hack. simpl. by apply all_acknowledged.
  - rewrite Hquiet. simpl. by rewrite notifications_snoc, app_nil_r.
Qed.

Lemma processOfflineQueue_all_succeed_witness :
  let api := TurbodocAPI.client signed_in always_created in
  let w := enqueue_all three_enqueues empty_world in
  let w' := exec (processOfflineQueue api) w in
  length (queue_of w) = 3 ∧
  queue_of w' = [] ∧
  notifications (trace w')
    = notifications (trace w)
      ++ (if 1 <? length (queue_of w)
          then [("Sync Complete", pretty (length (queue_of w)) +:+ " offline bookmarks synced")]
          else []).
Proof.
  split; [reflexivity|].
  apply (processOfflineQueue_all_succeed
           (TurbodocAPI.client signed_in always_created)
           (enqueue_all three_enqueues empty_world)).
  - reflexivity.
  - unfold healthy. simpl. constructor.
  - unfold ids_are_numbers. simpl. repeat constructor.
  - intros k item _. reflexivity.
Defined.


(** C1 as stated fails: A and B are enqueued within one millisecond and get
    the same id; A's replay fails, B's succeeds, and removing B by its id
    removes A as well. *)
Lemma failed_entry_removed_with_its_twin :
  let api := TurbodocAPI.client signed_in server_error_then_created in
  let w := enqueue_all same_millisecond empty_world in
  let w' := exec (processOfflineQueue api) w in
  ∃ K, queue_of w !! 0 = Some K ∧
       replay_ok (api_createBookmark api 0 K) = false ∧
       K ∉ queue_of w'.
Proof.
  eexists. split; [reflexivity|]. split; [reflexivity|].
  vm_compute. apply not_elem_of_nil.
Qed.

(** C9 as stated fails: two enqueues within one millisecond whose random
    numbers differ by 2^-16 get the same id. *)
Lemma ids_can_collide :
  unique_ids (queue_of (enqueue_all same_millisecond empty_world)) = false.
Proof. reflexivity. Qed.

Lemma ids_unique_when_clock_readings_are_apart_witness :
  unique_ids (queue_of (enqueue_all two_milliseconds_apart two_entries)) = true.
Proof.
  apply (ids_unique_when_clock_readings_are_apart two_milliseconds_apart
           [1700000000000; 1700000000002]%Z two_entries).
  - vm_compute. reflexivity.
  - reflexivity.
  - reflexivity.
  - vm_compute. reflexivity.
Defined.

(** A distance of one millisecond between two enqueues is not enough: the
    two readings are as the browser gives them, yet the ids are the same. *)
Lemma ids_can_collide_in_consecutive_milliseconds :
  map (λ item, clock item.2) consecutive_milliseconds
    = [Some 1700000000000%Z; Some 1700000000001%Z] ∧
  unique_ids (queue_of (enqueue_all consecutive_milliseconds empty_world)) = false.
Proof. split; vm_compute; reflexivity. Qed.

(** C6 as stated fails: [clearOfflineQueue] on a queue of two entries with
    different ids leaves a queue that is neither the old one, nor the old
    one with an entry appended, nor the old one without the entries of
    some id. *)
Lemma clearOfflineQueue_is_no_removal_by_id :
  let q := queue_of two_entries in
  let q' := queue_of (exec (run_op Clear) two_entries) in
  q' ≠ q ∧
  (∀ e, q' ≠ q ++ [e]) ∧
  (∀ itemId, q' ≠ List.filter (λ item, Js.strict_ne (id item) itemId) q).
Proof.
  cbv zeta.
  assert (queue_of (exec (run_op Clear) two_entries) = []) as -> by reflexivity.
  assert (queue_of two_entries
          = [mkEntry ∅ 1.25%float 1%float; mkEntry ∅ 2.5%float 2%float]) as ->
    by reflexivity.
  split_and!; [done|by intros e []%app_cons_not_nil|].
  intros itemId. simpl. unfold Js.strict_ne.
  destruct (Js.strict_eq 1.25%float itemId) eqn:H1; [|done].
  destruct (Js.strict_eq 2.5%float itemId) eqn:H2; [|done].
  by pose proof (strict_eq_same _ _ _ H1 H2).
Qed.

Lemma queue_keeps_insertion_order_witness :
  healthy empty_world ∧
  outcome getOfflineQueue (enqueue_all three_enqueues empty_world)
  = Return (mkResult true None (Some (queue_of empty_world ++ new_entries three_enqueues))).
Proof.
  assert (healthy empty_world) as Hw by (unfold healthy; simpl; constructor).
  split; [exact Hw|].
  exact (proj1 queue_keeps_insertion_order three_enqueues empty_world Hw).
Defined.

Lemma tally_same_verdict api1 api2 q k :
  (∀ k item, same_verdict (api_createBookmark api1 k item) (api_createBookmark api2 k item)) →
  tally api1 k q = tally api2 k q.
Proof.
  intros Hsame. revert k. induction q as [|item q IH]; intros k; [done|]. simpl.
  rewrite IH. specialize (Hsame k item).
  destruct (api_createBookmark api1 k item), (api_createBookmark api2 k item);
    simpl in *; try done. by rewrite Hsame.
Qed.

Lemma for_of_queue_same_verdict api1 api2 q k c w :
  (∀ k item, same_verdict (api_createBookmark api1 k item) (api_createBookmark api2 k item)) →
  (∀ k item, api_console api1 k item = api_console api2 k item) →
  exec (for_of_queue api1 k q c) w = exec (for_of_queue api2 k q c) w.
Proof.
  intros Hsame Hconsole. revert k c w. induction q as [|item q IH]; intros k c w; [done|].
  rewrite !exec_for_of_queue_cons, !exec_process_item. cbn zeta.
  rewrite (Hconsole k item). specialize (Hsame k item).
  destruct (api_createBookmark api1 k item), (api_createBookmark api2 k item);
    simpl in *; try done.
  rewrite Hsame. apply IH.
Qed.

Lemma report_same_authentication api1 api2 c w :
  api_isAuthenticated api1 = api_isAuthenticated api2 →
  report api1 c w = report api2 c w.
Proof. intros Hauth. unfold report, updateBadge. by rewrite Hauth. Qed.

(** C5, amended: the reconciler does not look at the kind of a failure.
    (1) Whatever a replay that did not succeed carries, the loop adds one to
    failed-count and leaves the store as it is. (2) After a pass of a
    signed-in client over a snapshot it could read, an entry whose replay
    did not succeed, whatever the failure, is still queued, provided no
    entry whose replay succeeded in the pass has the same id, and whatever
    the store does. (3) Two passes from the same world whose clients agree
    on the authentication state, on which replays succeed and on what the
    calls write to the console are the same pass, whatever errors the
    failing replays carry. *)
Theorem reconciler_blind_to_failure_kind :
  (∀ api k item p f w,
     replay_ok (api_createBookmark api k item) = false →
     outcome (process_item api k item (p, f)) w = Return (p, S f) ∧
     local (exec (process_item api k item (p, f)) w) = local w) ∧
  (∀ api w k K,
     api_isAuthenticated api = true →
     verdict w = false →
     queue_of w !! k = Some K →
     replay_ok (api_createBookmark api k K) = false →
     (∀ j item, queue_of w !! j = Some item →
                replay_ok (api_createBookmark api j item) = true →
                Js.strict_ne (id K) (id item) = true) →
     K ∈ queue_of (exec (processOfflineQueue api) w)) ∧
  (∀ api1 api2 w,
     api_isAuthenticated api1 = api_isAuthenticated api2 →
     (∀ k item, same_verdict (api_createBookmark api1 k item)
                             (api_createBookmark api2 k item)) →
     (∀ k item, api_console api1 k item = api_console api2 k item) →
     processOfflineQueue api1 w = processOfflineQueue api2 w).
Proof.
  split_and!.
  - intros api k item p f w Hfail. unfold outcome, exec. rewrite process_item_eq.
    cbn zeta. destruct (api_createBookmark api k item) as [result|e]; simpl in Hfail.
    + rewrite Hfail. cbn [fst snd]. split; [done|]. by rewrite local_logged.
    + cbn [fst snd emit local]. split; [done|]. by rewrite local_logged.
  - intros api w k K Hauth Hread HK Hfail Hids. unfold exec.
    assert (queue_of w ≠ []) as Hne by (by intros Hq; rewrite Hq in HK).
    rewrite processOfflineQueue_pass by done.
    destruct (tally api 0 (queue_of w)) as [p f].
    destruct (report_spec api p f
                (exec (for_of_queue api 0 (queue_of w) (0, 0))
                      (settle (StorageGet OFFLINE_QUEUE) w)))
      as (w3 & -> & Hlocal & _).
    simpl. unfold queue_of at 1. rewrite Hlocal.
    apply (for_of_queue_keeps api K); [by eapply list_elem_of_lookup_2|].
    intros j item Hj Hok. by apply (Hids j item).
  - intros api1 api2 w Hauth Hsame Hconsole.
    destruct (api_isAuthenticated api2) eqn:Hauth2.
    + destruct (verdict w) eqn:Hread.
      { by rewrite !processOfflineQueue_idle by auto. }
      destruct (decide (queue_of w = [])) as [Hempty|Hne].
      { by rewrite !processOfflineQueue_idle by auto. }
      rewrite !processOfflineQueue_pass by done.
      rewrite (tally_same_verdict api1 api2) by done.
      rewrite (for_of_queue_same_verdict api1 api2) by done.
      apply report_same_authentication. congruence.
    + rewrite (processOfflineQueue_signed_out api1), (processOfflineQueue_signed_out api2);
        congruence.
Qed.

Lemma reconciler_blind_to_failure_kind_witness :
  let unauthorized := TurbodocAPI.client signed_in (status_only 401) in
  let server_error := TurbodocAPI.client signed_in (status_only 500) in
  let w := enqueue_all later_enqueues empty_world in
  (replay_ok (api_createBookmark unauthorized 0 entry_A) = false ∧
   outcome (process_item unauthorized 0 entry_A (0, 0)) w = Return (0, 1) ∧
   local (exec (process_item unauthorized 0 entry_A (0, 0)) w) = local w) ∧
  entry_A ∈ queue_of (exec (processOfflineQueue unauthorized) w) ∧
  processOfflineQueue unauthorized w = processOfflineQueue server_error w.
Proof.
  split; [split; [reflexivity|]|split].
  - apply (proj1 reconciler_blind_to_failure_kind
             (TurbodocAPI.client signed_in (status_only 401)) 0 entry_A 0 0
             (enqueue_all later_enqueues empty_world)).
    reflexivity.
  - apply (proj1 (proj2 reconciler_blind_to_failure_kind)
             (TurbodocAPI.client signed_in (status_only 401))
             (enqueue_all later_enqueues empty_world) 0 entry_A);
      [reflexivity..|].
    intros j item _ Hok. discriminate Hok.
  - apply (proj2 (proj2 reconciler_blind_to_failure_kind)
             (TurbodocAPI.client signed_in (status_only 401))
             (TurbodocAPI.client signed_in (status_only 500))
             (enqueue_all later_enqueues empty_world)).
    + reflexivity.
    + intros k item. reflexivity.
    + intros k item. reflexivity.
Defined.

(** C5 as stated fails: a replay answered 401, which the save path does not
    count as retryable, is handled exactly as one answered 500, which it
    does: the two passes end in the same world, with the entry still queued
    and nothing recorded about it but the error line of [createBookmark]
    and the failed-count line. *)
Lemma unauthorized_replay_handled_as_server_error :
  let unauthorized := TurbodocAPI.client signed_in (status_only 401) in
  let server_error := TurbodocAPI.client signed_in (status_only 500) in
  let w := exec (StorageManager.addToOfflineQueue payload_A readings_A) empty_world in
  api_createBookmark unauthorized 0 entry_A
    = Resolved (mkApiResult false None (Some (Js.Text "Please sign in to continue"))) ∧
  retryable "Please sign in to continue" = false ∧
  api_createBookmark server_error 0 entry_A
    = Resolved (mkApiResult false None
                  (Some (Js.Text "Server error. Please try again later"))) ∧
  retryable "Server error. Please try again later" = true ∧
  processOfflineQueue unauthorized w = processOfflineQueue server_error w ∧
  queue_of (exec (processOfflineQueue unauthorized) w) = [entry_A] ∧
  console_lines (trace (exec (processOfflineQueue unauthorized) w))
    = [ (Err, "Create bookmark error:");
        (Warn, "Failed to process 1 offline bookmarks") ].
Proof. vm_compute. repeat split. Qed.

End pass.

(** * Further properties *)

(** ** The queue methods: results, failures, round trips *)

Section storage_manager_more.
Import StorageManager.
Implicit Types (w : World) (q : Queue).

(** X1: [addToOfflineQueue] never rejects and its result tells the truth:
    [success: true] means the new entry is the last of the stored queue,
    [success: false] means the store is exactly as it was and carries the
    error text. *)
Theorem addToOfflineQueue_result bookmarkData r w :
  let w' := exec (addToOfflineQueue bookmarkData r) w in
  ∃ result,
    outcome (addToOfflineQueue bookmarkData r) w = Return result ∧
    (success result = true →
       queue_of w' = queue_of w ++ [new_entry bookmarkData r]) ∧
    (success result = false →
       local w' = local w ∧
       error result = Some "Failed to add bookmark to offline queue").
Proof.
  cbv zeta. unfold outcome, exec. rewrite addToOfflineQueue_eq.
  destruct (verdict w); [by eexists|].
  destruct (verdict (settle _ w)); [by eexists|].
  eexists. split_and!; [done| |done]. intros _. simpl.
  rewrite queue_of_set_local. by rewrite lookup_insert_eq.
Qed.

(** X2: [removeFromOfflineQueue] never rejects; when it answers
    [success: false] the store is exactly as it was. On a working store a
    second removal of the same id changes nothing, and two removals give the
    same queue in either order. *)
Theorem removeFromOfflineQueue_repeat_and_swap i j w :
  (∃ result,
     outcome (removeFromOfflineQueue i) w = Return result ∧
     (success result = false → local (exec (removeFromOfflineQueue i) w) = local w)) ∧
  (healthy w →
     queue_of (exec (removeFromOfflineQueue i) (exec (removeFromOfflineQueue i) w))
     = queue_of (exec (removeFromOfflineQueue i) w) ∧
     queue_of (exec (removeFromOfflineQueue j) (exec (removeFromOfflineQueue i) w))
     = queue_of (exec (removeFromOfflineQueue i) (exec (removeFromOfflineQueue j) w))).
Proof.
  split.
  - unfold outcome, exec. rewrite removeFromOfflineQueue_eq.
    destruct (verdict w); [by eexists|].
    destruct (verdict (settle _ w)); by eexists.
  - intros Hw.
    destruct (removeFromOfflineQueue_healthy i w Hw) as (_ & Hi & Hwi).
    destruct (removeFromOfflineQueue_healthy j w Hw) as (_ & Hj & Hwj).
    destruct (removeFromOfflineQueue_healthy i _ Hwi) as (_ & -> & _).
    destruct (removeFromOfflineQueue_healthy j _ Hwi) as (_ & -> & _).
    destruct (removeFromOfflineQueue_healthy i _ Hwj) as (_ & -> & _).
    rewrite Hi, Hj, !filter_filter. split.
    + apply filter_ext_in. intros x _. by destruct (Js.strict_ne (id x) i).
    + apply filter_ext_in. intros x _. apply andb_comm.
Qed.

Lemma removeFromOfflineQueue_repeat_and_swap_witness :
  queue_of (exec (removeFromOfflineQueue 1.25%float)
              (exec (removeFromOfflineQueue 1.25%float) two_entries))
  = queue_of (exec (removeFromOfflineQueue 1.25%float) two_entries) ∧
  queue_of (exec (removeFromOfflineQueue 2.5%float)
              (exec (removeFromOfflineQueue 1.25%float) two_entries))
  = queue_of (exec (removeFromOfflineQueue 1.25%float)
                (exec (removeFromOfflineQueue 2.5%float) two_entries)).
Proof.
  apply (proj2 (removeFromOfflineQueue_repeat_and_swap 1.25%float 2.5%float two_entries)).
  unfold healthy. simpl. constructor.
Defined.

(** X3: enqueue, then remove by the id of the new entry: on a working store
    the queue is what it was, provided no queued entry had that id and the
    id is a number. *)
Theorem enqueue_then_remove bookmarkData r w :
  healthy w →
  present (id (new_entry bookmarkData r)) (queue_of w) = false →
  Js.strict_eq (id (new_entry bookmarkData r)) (id (new_entry bookmarkData r)) = true →
  queue_of (exec (removeFromOfflineQueue (id (new_entry bookmarkData r)))
              (exec (addToOfflineQueue bookmarkData r) w))
  = queue_of w.
Proof.
  intros Hw Hfresh Hnum.
  destruct (addToOfflineQueue_healthy bookmarkData r w Hw) as (_ & Hq & Hw').
  destruct (removeFromOfflineQueue_healthy (id (new_entry bookmarkData r)) _ Hw')
    as (_ & -> & _).
  rewrite Hq, List.filter_app. clear Hq Hw'.
  remember (new_entry bookmarkData r) as e eqn:He. clear He.
  cbn [List.filter]. unfold Js.strict_ne at 2. rewrite Hnum. cbn [negb].
  rewrite app_nil_r. by apply filter_all, present_false_forallb.
Qed.

Lemma enqueue_then_remove_witness :
  queue_of (exec (removeFromOfflineQueue (id (new_entry payload_C readings_C)))
              (exec (addToOfflineQueue payload_C readings_C)
                    (enqueue_all later_enqueues empty_world)))
  = queue_of (enqueue_all later_enqueues empty_world).
Proof.
  apply (enqueue_then_remove payload_C readings_C (enqueue_all later_enqueues empty_world)).
  - unfold healthy. simpl. constructor.
  - reflexivity.
  - reflexivity.
Defined.

(** X4: the queue methods write the queue key only: whatever the store
    does, every other key of [storage.local] holds after [addToOfflineQueue],
    [getOfflineQueue], [removeFromOfflineQueue] and [clearOfflineQueue] what
    it held before. *)
Theorem queue_methods_touch_one_key op k w :
  op ≠ ClearAll → k ≠ OFFLINE_QUEUE →
  local (exec (run_op op) w) !! k = local w !! k.
Proof.
  intros Hop Hk. unfold exec. destruct op as [b r| |i| |]; simpl; [..|done].
  - rewrite addToOfflineQueue_eq. destruct (verdict w); [done|].
    destruct (verdict _); [done|]. simpl. by rewrite lookup_insert_ne.
  - by rewrite getOfflineQueue_eq.
  - rewrite removeFromOfflineQueue_eq. destruct (verdict w); [done|].
    destruct (verdict _); [done|]. simpl. by rewrite lookup_insert_ne.
  - unfold clearOfflineQueue, try_catch, bind, browserCompat.storage_local_remove.
    rewrite call_eq. destruct (verdict w); [done|]. simpl. by rewrite lookup_delete_ne.
Qed.

Lemma queue_methods_touch_one_key_witness :
  local (exec (run_op Clear) queue_and_last_sync) !! "turbodoc_last_sync"
  = local queue_and_last_sync !! "turbodoc_last_sync".
Proof.
  apply (queue_methods_touch_one_key Clear "turbodoc_last_sync" queue_and_last_sync).
  - discriminate.
  - discriminate.
Defined.

(** X5: on a working store the list read after [clearOfflineQueue] or
    [clearAll] is empty, and [clearOfflineQueue] leaves no value under the
    queue key. *)
Theorem cleared_queue_lists_empty w :
  healthy w →
  outcome getOfflineQueue (exec clearOfflineQueue w) = Return (mkResult true None (Some [])) ∧
  outcome getOfflineQueue (exec clearAll w) = Return (mkResult true None (Some [])) ∧
  local (exec clearOfflineQueue w) !! OFFLINE_QUEUE = None ∧
  local (exec clearAll w) = ∅.
Proof.
  intros Hw. pose proof (healthy_verdict _ Hw) as Hv.
  unfold outcome, exec, clearOfflineQueue, clearAll, try_catch, bind,
    browserCompat.storage_local_remove, browserCompat.storage_local_clear.
  rewrite !call_eq, Hv. simpl. rewrite !getOfflineQueue_eq. simpl.
  assert (verdict (set_local (delete OFFLINE_QUEUE (local w))
                     (settle (StorageRemove OFFLINE_QUEUE) w)) = false) as ->.
  { apply healthy_verdict, healthy_set_local. by apply healthy_settle. }
  assert (verdict (set_local ∅ (settle StorageClear w)) = false) as ->.
  { apply healthy_verdict, healthy_set_local. by apply healthy_settle. }
  split_and!; [|done| |done].
  - by rewrite queue_of_set_local, lookup_delete_eq.
  - apply lookup_delete_eq.
Qed.

Lemma cleared_queue_lists_empty_witness :
  outcome getOfflineQueue (exec clearOfflineQueue two_entries)
    = Return (mkResult true None (Some [])) ∧
  outcome getOfflineQueue (exec clearAll two_entries) = Return (mkResult true None (Some [])) ∧
  local (exec clearOfflineQueue two_entries) !! OFFLINE_QUEUE = None ∧
  local (exec clearAll two_entries) = ∅.
Proof.
  apply (cleared_queue_lists_empty two_entries). unfold healthy. simpl. constructor.
Defined.

End storage_manager_more.

(** ** The API client *)

Section api_client.
Import TurbodocAPI.
Implicit Types (st : State) (fetch : Request → Fetch) (b : BookmarkData).

Lemma request_catch_throws e : ∃ e', request_catch e = Throw e'.
Proof. unfold request_catch. destruct (_ && _); by eexists. Qed.

Lemma request_eq st fetch b :
  supabase st = true →
  request st fetch "bookmarks" "POST"
    (mkPayload (b !! "title") (b !! "url") (format_tags (b !! "tags")) "unread")
  = match fetch (bookmark_request st b) with
    | FetchRejected e => request_catch e
    | Response status json =>
        if negb (ok status) then
          if (status =? 401)%Z then request_catch (Js.new_Error "UNAUTHORIZED")
          else if (status =? 403)%Z then request_catch (Js.new_Error "FORBIDDEN")
          else if (status =? 404)%Z then request_catch (Js.new_Error "NOT_FOUND")
          else if (500 <=? status)%Z then request_catch (Js.new_Error "SERVER_ERROR")
          else
            match match json with Return body => body
                                | Throw _ => JValue (mkBody None None) end with
            | JNull => request_catch (Js.TypeError_null "message")
            | JValue fields =>
                request_catch (Js.new_Error
                  match body_message fields with
                  | Some m => if String.eqb m "" then "HTTP " +:+ pretty status else m
                  | None => "HTTP " +:+ pretty status
                  end)
            end
        else match json with
             | Return data => Return data
             | Throw e => request_catch e
             end
    end.
Proof. intros Hs. unfold request. by rewrite Hs. Qed.

(** The [try] block of [createBookmark] returns the success result of a
    created bookmark, or throws. *)
Lemma createBookmark_try_cases st fetch b :
  (∃ status body,
     is_Some (user st) ∧ supabase st = true ∧
     fetch (bookmark_request st b) = Response status (Return (JValue body)) ∧
     ok status = true ∧
     createBookmark_try st fetch b = Return (mkApiResult true (body_data body) None)) ∨
  (∃ e, createBookmark_try st fetch b = Throw e).
Proof.
  unfold createBookmark_try.
  destruct (user st) as [u|] eqn:Hu; [|by right; eexists].
  destruct (supabase st) eqn:Hs; [|by right; unfold request; rewrite Hs; eexists].
  rewrite request_eq by done.
  destruct (fetch (bookmark_request st b)) as [status json|e].
  - destruct (ok status) eqn:Hok; simpl.
    + destruct json as [[|body]|e].
      * right. by eexists.
      * left. by eauto 10.
      * right. destruct (request_catch_throws e) as [e' ->]. by eexists.
    + right.
      repeat match goal with
             | |- context [if ?c then _ else _] => destruct c
             | |- context [match ?j with JNull => _ | JValue _ => _ end] => destruct j
             end;
        match goal with
        | |- context [request_catch ?e] =>
            destruct (request_catch_throws e) as [e' ->]; by eexists
        end.
  - right. destruct (request_catch_throws e) as [e' ->]. by eexists.
Qed.

(** X6: [createBookmark] answers [success: true] exactly when the client has
    a user and a Supabase client and [fetch], asked to POST the payload to
    [https://api.turbodoc.ai/v1/bookmarks] with the bearer token of the
    session, answers with a status from 200 to 299 and a body that parses to
    something other than [null]; the result then carries the [data] field
    of that body. *)
Theorem createBookmark_success_iff st fetch b :
  api_success (createBookmark st fetch b) = true ↔
  ∃ status body,
    is_Some (user st) ∧ supabase st = true ∧
    fetch (bookmark_request st b) = Response status (Return (JValue body)) ∧
    ok status = true ∧
    createBookmark st fetch b = mkApiResult true (body_data body) None.
Proof.
  unfold createBookmark.
  destruct (createBookmark_try_cases st fetch b)
    as [(status & body & Hu & Hs & Hfetch & Hok & ->)|[e ->]]; simpl.
  - split; [by eauto 10|done].
  - split; [done|]. by intros (? & ? & _ & _ & _ & _ & [=]).
Qed.

(** X7: without a user, or without a Supabase client, [createBookmark]
    fails whatever [fetch] would answer, so no request is made; the error
    is [User not authenticated], or [Supabase client not initialized] when
    there is a user. *)
Theorem createBookmark_guards st fetch b :
  (user st = None →
     createBookmark st fetch b
     = mkApiResult false None (Some (Js.Text "User not authenticated"))) ∧
  (is_Some (user st) → supabase st = false →
     createBookmark st fetch b
     = mkApiResult false None (Some (Js.Text "Supabase client not initialized"))).
Proof.
  unfold createBookmark, createBookmark_try, request. split.
  - by intros ->.
  - intros [u ->] ->. done.
Qed.

Lemma createBookmark_guards_witness :
  createBookmark signed_out always_created_once payload_A
  = mkApiResult false None (Some (Js.Text "User not authenticated")).
Proof.
  apply (proj1 (createBookmark_guards signed_out always_created_once payload_A)).
  reflexivity.
Defined.

Lemma createBookmark_throw st fetch b u e :
  user st = Some u → supabase st = true →
  request st fetch "bookmarks" "POST"
    (mkPayload (b !! "title") (b !! "url") (format_tags (b !! "tags")) "unread")
  = Throw e →
  createBookmark st fetch b = mkApiResult false None (Some (getErrorMessage (Js.message e))).
Proof.
  intros Hu Hs Hreq. unfold createBookmark, createBookmark_try. by rewrite Hu, Hreq.
Qed.

(** X8: what a signed-in client reports for each kind of answer, and
    whether the save path then queues the bookmark: 401, 403 and 404 give
    their fixed texts and are not queued; a status of 500 or more and a
    [TypeError] of [fetch] give the server and network texts and are
    queued. *)
Theorem createBookmark_failure_kinds st fetch b :
  is_Some (user st) → supabase st = true →
  let result := createBookmark st fetch b in
  match fetch (bookmark_request st b) with
  | Response status _ =>
      (status = 401%Z →
         result = mkApiResult false None (Some (Js.Text "Please sign in to continue")) ∧
         queued_on_failure result = false) ∧
      (status = 403%Z →
         result = mkApiResult false None (Some (Js.Text "Access denied")) ∧
         queued_on_failure result = false) ∧
      (status = 404%Z →
         result = mkApiResult false None (Some (Js.Text "Resource not found")) ∧
         queued_on_failure result = false) ∧
      ((500 ≤ status)%Z →
         result = mkApiResult false None
                    (Some (Js.Text "Server error. Please try again later")) ∧
         queued_on_failure result = true)
  | FetchRejected e =>
      Js.name e = "TypeError" → Js.includes "fetch" (Js.message e) = true →
      result = mkApiResult false None
                 (Some (Js.Text "Network error. Please check your connection")) ∧
      queued_on_failure result = true
  end.
Proof.
  intros [u Hu] Hs result. subst result.
  destruct (fetch (bookmark_request st b)) as [status json|e] eqn:Hfetch.
  - assert (∀ code,
      request st fetch "bookmarks" "POST"
        (mkPayload (b !! "title") (b !! "url") (format_tags (b !! "tags")) "unread")
      = Throw (Js.new_Error code) →
      createBookmark st fetch b = mkApiResult false None (Some (getErrorMessage code)))
      as Hthrow.
    { intros code Hreq. by rewrite (createBookmark_throw _ _ _ _ _ Hu Hs Hreq). }
    split_and!.
    + intros ->. rewrite (Hthrow "UNAUTHORIZED"); [done|].
      by rewrite request_eq, Hfetch.
    + intros ->. rewrite (Hthrow "FORBIDDEN"); [done|].
      by rewrite request_eq, Hfetch.
    + intros ->. rewrite (Hthrow "NOT_FOUND"); [done|].
      by rewrite request_eq, Hfetch.
    + intros Hstatus. rewrite (Hthrow "SERVER_ERROR"); [done|].
      rewrite request_eq, Hfetch by done.
      assert (ok status = false) as ->.
      { unfold ok. apply andb_false_iff. right. apply Z.leb_gt. lia. }
      assert ((status =? 401)%Z = false) as -> by (apply Z.eqb_neq; lia).
      assert ((status =? 403)%Z = false) as -> by (apply Z.eqb_neq; lia).
      assert ((status =? 404)%Z = false) as -> by (apply Z.eqb_neq; lia).
      assert ((500 <=? status)%Z = true) as -> by (apply Z.leb_le; lia).
      done.
  - intros Hname Hmsg.
    rewrite (createBookmark_throw st fetch b u (Js.new_Error "NETWORK_ERROR")); [done..|].
    rewrite request_eq, Hfetch by done. unfold request_catch. by rewrite Hname, Hmsg.
Qed.

Lemma createBookmark_failure_kinds_witness :
  createBookmark signed_in (status_only 503 0) payload_A
  = mkApiResult false None (Some (Js.Text "Server error. Please try again later")) ∧
  queued_on_failure (createBookmark signed_in (status_only 503 0) payload_A) = true.
Proof.
  apply (createBookmark_failure_kinds signed_in (status_only 503 0) payload_A
           (ltac:(by eexists)) eq_refl).
  done.
Defined.

Lemma errorMessages_lookup code text :
  errorMessages !! code = Some text →
  (code, text) ∈
    [ ("UNAUTHORIZED", "Please sign in to continue");
      ("FORBIDDEN", "Access denied");
      ("NOT_FOUND", "Resource not found");
      ("SERVER_ERROR", "Server error. Please try again later");
      ("NETWORK_ERROR", "Network error. Please check your connection");
      ("TIMEOUT", "Request timeout. Please try again") ].
Proof. unfold errorMessages. apply elem_of_list_to_map_2. Qed.

(** X9: [getErrorMessage] returns something that is not a string, the
    inherited member of that name, exactly for the names of the members of
    [Object.prototype]. For every other code it returns a text that is not
    empty, and passing that text through [getErrorMessage] again gives the
    same text: no message is also an error code or the name of a member. *)
Theorem getErrorMessage_text errorCode :
  match getErrorMessage errorCode with
  | Js.Member key => (key = errorCode ∧ errorCode ∈ Js.Object_prototype)
  | Js.Text text =>
      ((errorCode ∉ Js.Object_prototype) ∧ text ≠ "" ∧ getErrorMessage text = Js.Text text)
  end.
Proof.
  unfold getErrorMessage at 1.
  destruct (errorMessages !! errorCode) as [text|] eqn:Hcode.
  - apply errorMessages_lookup in Hcode.
    repeat (apply elem_of_cons in Hcode as [Hcode|Hcode];
            [injection Hcode as -> ->;
             split_and!; [apply (bool_decide_unpack _); by vm_compute|done..]|]).
    by apply elem_of_nil in Hcode.
  - destruct (bool_decide_reflect (errorCode ∈ Js.Object_prototype)) as [Hin|Hout]; [done|].
    destruct (String.eqb errorCode "") eqn:Hempty; [done|].
    apply String.eqb_neq in Hempty. split_and!; [done..|].
    unfold getErrorMessage. rewrite Hcode, bool_decide_eq_false_2 by done.
    by rewrite (proj2 (String.eqb_neq _ _) Hempty).
Qed.

(** X10: after [setSession(session)] the client is authenticated exactly
    when the session exists and carries a user; [this.user], which is what
    [createBookmark] tests, is then set exactly when [isAuthenticated()]
    holds; and after [logout()] the client is not authenticated. *)
Theorem setSession_authentication s st :
  (isAuthenticated (setSession s st) = true ↔
   ∃ sess u, s = Some sess ∧ session_user sess = Some u) ∧
  (is_Some (user (setSession s st)) ↔ isAuthenticated (setSession s st) = true) ∧
  isAuthenticated (logout st) = false.
Proof.
  unfold isAuthenticated, logout, setSession. simpl. split_and!; [..|done].
  - destruct s as [sess|]; simpl; [destruct (session_user sess) as [u|] eqn:Hu; simpl|].
    + split; [by eauto|done].
    + split; [by intros [=]|by intros (?&?&?&?); simplify_eq].
    + split; [by intros [=]|by intros (?&?&?&?)].
  - destruct s as [sess|]; simpl; [destruct (session_user sess) as [u|]; simpl|].
    + split; [done|by eauto].
    + split; [by intros []|by intros [=]].
    + split; [by intros []|by intros [=]].
Qed.

End api_client.

(** ** The background service *)

Section background_more.
Import StorageManager TurbodocBackground.
Implicit Types (api : Api) (w : World) (q : Queue).

Lemma badge_texts_logged lines w :
  badge_texts (trace (logged lines w)) = badge_texts (trace w).
Proof.
  rewrite logged_eq. simpl. unfold badge_texts. rewrite omap_app.
  rewrite <-(app_nil_r (omap _ (trace w))) at 2. f_equal.
  by induction lines.
Qed.

Lemma badge_texts_snoc tr e :
  badge_texts (tr ++ [e])
  = badge_texts tr ++ match e with SetBadgeText text => [text] | _ => [] end.
Proof. unfold badge_texts. rewrite omap_app. by destruct e. Qed.

Lemma updateBadge_trace api w :
  healthy w →
  trace (exec (updateBadge api) w)
  = trace w ++
    if api_isAuthenticated api then
      if 0 <? length (queue_of w)
      then [ StorageGet OFFLINE_QUEUE;
             SetBadgeText (pretty (length (queue_of w)));
             SetBadgeBackgroundColor "#f59e0b" ]
      else [ StorageGet OFFLINE_QUEUE; SetBadgeText "" ]
    else [ SetBadgeText "" ].
Proof.
  intros Hw. pose proof (healthy_verdict _ Hw) as Hv.
  assert (∀ e, verdict (settle e w) = false) as Hv1.
  { intros e. by apply healthy_verdict, healthy_settle. }
  assert (∀ e1 e2, verdict (settle e2 (settle e1 w)) = false) as Hv2.
  { intros e1 e2. by apply healthy_verdict, healthy_settle, healthy_settle. }
  unfold exec, updateBadge, try_catch, bind, console,
    browserCompat.action_setBadgeText, browserCompat.action_setBadgeBackgroundColor.
  destruct (api_isAuthenticated api); simpl.
  - rewrite getOfflineQueue_eq, Hv. simpl.
    destruct (0 <? length (queue_of w)).
    + rewrite call_eq, Hv1. simpl. rewrite call_eq, Hv2. simpl.
      by rewrite <-!app_assoc.
    + rewrite call_eq, Hv1. simpl. by rewrite <-!app_assoc.
  - by rewrite call_eq, Hv.
Qed.

(** X11: [updateBadge] never throws and leaves the store alone; on a
    browser whose calls succeed it reads the queue and sets the badge to the
    number of queued entries, in orange, when the client is signed in and
    the queue is not empty, and clears the badge otherwise (without reading
    the queue when signed out). *)
Theorem updateBadge_shows_queue_length api w :
  outcome (updateBadge api) w = Return tt ∧
  local (exec (updateBadge api) w) = local w ∧
  (healthy w →
   trace (exec (updateBadge api) w)
   = trace w ++
     if api_isAuthenticated api then
       if 0 <? length (queue_of w)
       then [ StorageGet OFFLINE_QUEUE;
              SetBadgeText (pretty (length (queue_of w)));
              SetBadgeBackgroundColor "#f59e0b" ]
       else [ StorageGet OFFLINE_QUEUE; SetBadgeText "" ]
     else [ SetBadgeText "" ]).
Proof.
  split_and!; [..|apply updateBadge_trace]; unfold outcome, exec;
    by destruct (updateBadge_spec api w) as (w' & -> & Hlocal & _).
Qed.

Lemma updateBadge_shows_queue_length_witness :
  trace (exec (updateBadge (TurbodocAPI.client signed_in always_created)) two_entries)
  = [ StorageGet OFFLINE_QUEUE; SetBadgeText "2"; SetBadgeBackgroundColor "#f59e0b" ].
Proof.
  apply (proj2 (proj2 (updateBadge_shows_queue_length
                         (TurbodocAPI.client signed_in always_created) two_entries))).
  unfold healthy. simpl. constructor.
Defined.

Lemma removeFromOfflineQueue_store itemId w :
  let w' := exec (removeFromOfflineQueue itemId) w in
  sublist (queue_of w') (queue_of w) ∧
  (∀ k, k ≠ OFFLINE_QUEUE → local w' !! k = local w !! k) ∧
  badge_texts (trace w') = badge_texts (trace w).
Proof.
  cbv zeta. unfold exec. rewrite removeFromOfflineQueue_eq.
  destruct (verdict w); simpl.
  { split_and!; [done..|]. by rewrite badge_texts_snoc, app_nil_r. }
  destruct (verdict _); simpl.
  { split_and!; [done..|]. by rewrite !badge_texts_snoc, !app_nil_r. }
  split_and!.
  - rewrite queue_of_set_local, lookup_insert_eq. apply filter_sublist.
  - intros k Hk. by rewrite lookup_insert_ne.
  - by rewrite !badge_texts_snoc, !app_nil_r.
Qed.

(** Whatever the store does, the loop only removes entries, touches the
    queue key only and does not set the badge. *)
Lemma for_of_queue_store api q k c w :
  let w' := exec (for_of_queue api k q c) w in
  sublist (queue_of w') (queue_of w) ∧
  (∀ k, k ≠ OFFLINE_QUEUE → local w' !! k = local w !! k) ∧
  badge_texts (trace w') = badge_texts (trace w).
Proof.
  revert k c w. induction q as [|item q IH]; intros k c w; cbn zeta; [done|].
  rewrite exec_for_of_queue_cons.
  destruct (IH (S k)
    (if replay_ok (api_createBookmark api k item) then (S c.1, c.2) else (c.1, S c.2))
    (exec (process_item api k item c) w)) as (Hsub & Hkeys & ->).
  assert (sublist (queue_of (exec (process_item api k item c) w)) (queue_of w) ∧
          (∀ k', k' ≠ OFFLINE_QUEUE →
                 local (exec (process_item api k item c) w) !! k' = local w !! k') ∧
          badge_texts (trace (exec (process_item api k item c) w))
          = badge_texts (trace w)) as (Hsub1 & Hkeys1 & ->).
  { rewrite exec_process_item. cbn zeta.
    assert (badge_texts (trace (logged (api_console api k item)
                                  (emit (CreateBookmark item) w)))
            = badge_texts (trace w)) as Hbadge.
    { rewrite badge_texts_logged. simpl. by rewrite badge_texts_snoc, app_nil_r. }
    destruct (api_createBookmark api k item) as [result|e].
    - destruct (api_success result).
      + destruct (removeFromOfflineQueue_store (id item)
                    (logged (api_console api k item) (emit (CreateBookmark item) w)))
          as (Hsub' & Hkeys' & ->).
        rewrite queue_of_logged in Hsub'. split_and!; [done| |done].
        intros k' Hk'. by rewrite Hkeys', local_logged.
      + rewrite queue_of_logged. split_and!; [done| |done].
        intros k' Hk'. by rewrite local_logged.
    - split_and!.
      + by rewrite queue_of_emit, queue_of_logged.
      + intros k' Hk'. by rewrite local_emit, local_logged.
      + cbn [trace emit]. by rewrite badge_texts_snoc, app_nil_r, Hbadge. }
  split_and!; [by etrans| |done].
  intros k' Hk'. by rewrite Hkeys, Hkeys1.
Qed.

(** A pass is over at once, is the snapshot read alone, or is the loop over
    the snapshot followed by the report. *)
Lemma processOfflineQueue_cases api w :
  processOfflineQueue api w = (Return tt, w) ∨
  processOfflineQueue api w = (Return tt, settle (StorageGet OFFLINE_QUEUE) w) ∨
  (api_isAuthenticated api = true ∧ verdict w = false ∧ queue_of w ≠ [] ∧
   processOfflineQueue api w
   = report api (tally api 0 (queue_of w))
       (exec (for_of_queue api 0 (queue_of w) (0, 0)) (settle (StorageGet OFFLINE_QUEUE) w))).
Proof.
  destruct (api_isAuthenticated api) eqn:Hauth.
  - destruct (verdict w) eqn:Hread.
    { right; left. by apply processOfflineQueue_idle; auto. }
    destruct (decide (queue_of w = [])) as [Hempty|Hne].
    { right; left. by apply processOfflineQueue_idle; auto. }
    right; right. split_and!; [done..|]. by apply processOfflineQueue_pass.
  - left. by apply processOfflineQueue_signed_out.
Qed.

(** X12: a pass never throws, whatever the client answers and whatever the
    store does; the queue it leaves is the old queue without some of its
    entries, the others as they were and in their order; and no other key
    of the store is touched. *)
Theorem processOfflineQueue_is_safe api w :
  let w' := exec (processOfflineQueue api) w in
  outcome (processOfflineQueue api) w = Return tt ∧
  sublist (queue_of w') (queue_of w) ∧
  (∀ k, k ≠ OFFLINE_QUEUE → local w' !! k = local w !! k).
Proof.
  cbv zeta. unfold outcome, exec.
  destruct (processOfflineQueue_cases api w) as [->|[->|(_ & _ & _ & ->)]]; [done..|].
  destruct (tally api 0 (queue_of w)) as [p f].
  destruct (report_spec api p f
              (exec (for_of_queue api 0 (queue_of w) (0, 0))
                    (settle (StorageGet OFFLINE_QUEUE) w))) as (w3 & -> & Hlocal & _).
  simpl. unfold queue_of at 1. rewrite Hlocal.
  destruct (for_of_queue_store api (queue_of w) 0 (0, 0)
              (settle (StorageGet OFFLINE_QUEUE) w)) as (Hsub & Hkeys & _).
  split_and!; [done..|]. apply Hkeys.
Qed.

Lemma tally_lengths api k q :
  tally api k q = (length (acknowledged api k q), length (unacknowledged api k q)) ∧
  length (acknowledged api k q) + length (unacknowledged api k q) = length q.
Proof.
  revert k. induction q as [|item q IH]; intros k; [done|]. simpl.
  destruct (IH (S k)) as [-> Hlen].
  destruct (replay_ok _); simpl; split; [done|lia|done|lia].
Qed.

(** X13: the loop never throws; processed-count is the number of replays
    that succeeded and failed-count the number of the others, so the two
    add up to the length of the snapshot. *)
Theorem for_of_queue_counts api q w :
  outcome (for_of_queue api 0 q (0, 0)) w
  = Return (length (acknowledged api 0 q), length (unacknowledged api 0 q)) ∧
  length (acknowledged api 0 q) + length (unacknowledged api 0 q) = length q.
Proof.
  rewrite for_of_queue_outcome. destruct (tally_lengths api 0 q) as [-> Hlen].
  done.
Qed.

Lemma acknowledged_ids api k q i :
  i ∈ acknowledged api k q → ∃ e, e ∈ q ∧ id e = i.
Proof.
  revert k. induction q as [|item q IH]; intros k; simpl; [by intros []%elem_of_nil|].
  destruct (replay_ok _).
  - intros [->|Hi]%elem_of_cons.
    + exists item. split; [by left|done].
    + destruct (IH _ Hi) as (e & He & <-). exists e. split; [by right|done].
  - intros Hi. destruct (IH _ Hi) as (e & He & <-). exists e. split; [by right|done].
Qed.

Lemma filter_acknowledged api q k pre :
  unique_ids q = true → ids_are_numbers q →
  (∀ e i, e ∈ q → i ∈ pre → Js.strict_ne (id e) i = true) →
  List.filter (λ e, forallb (λ i, Js.strict_ne (id e) i) (pre ++ acknowledged api k q)) q
  = unacknowledged api k q.
Proof.
  revert k pre. induction q as [|x q IH]; intros k pre Huniq Hnum Hpre; [done|].
  simpl in Huniq. apply andb_prop in Huniq as [Hx Huniq].
  rewrite forallb_forall in Hx.
  apply Forall_cons in Hnum as [Hnx Hnum].
  cbn [List.filter acknowledged unacknowledged].
  destruct (replay_ok (api_createBookmark api k x)).
  - rewrite forallb_app. cbn [forallb]. unfold Js.strict_ne at 2. rewrite Hnx.
    cbn [negb andb]. rewrite andb_false_r.
    rewrite <-(IH (S k) (pre ++ [id x])); [|done|done|].
    + apply filter_ext_in. intros e _. by rewrite <-app_assoc.
    + intros e i He [Hi| ->%list_elem_of_singleton]%elem_of_app.
      * apply Hpre; [by right|done].
      * apply list_elem_of_In, Hx in He. by apply andb_prop in He as [_ ?].
  - assert (forallb (λ i, Js.strict_ne (id x) i) (pre ++ acknowledged api (S k) q) = true)
      as ->.
    { apply forallb_forall. intros i [Hi|Hi]%list_elem_of_In%elem_of_app.
      - apply Hpre; [by left|done].
      - destruct (acknowledged_ids _ _ _ _ Hi) as (e & He & <-).
        apply list_elem_of_In, Hx in He. by apply andb_prop in He as [? _]. }
    f_equal. apply IH; [done..|].
    intros e i He Hi. apply Hpre; [by right|done].
Qed.

(** On a working store a pass of a signed-in client leaves the entries whose
    id differs from every acknowledged id, and the store still works when
    the report begins. *)
Lemma processOfflineQueue_healthy api w :
  api_isAuthenticated api = true → healthy w →
  queue_of (exec (processOfflineQueue api) w)
  = List.filter (λ e, forallb (λ i, Js.strict_ne (id e) i)
                        (acknowledged api 0 (queue_of w))) (queue_of w).
Proof.
  intros Hauth Hw. unfold exec.
  destruct (decide (queue_of w = [])) as [Hempty|Hne].
  { rewrite processOfflineQueue_idle by auto. by rewrite Hempty. }
  rewrite processOfflineQueue_pass by auto using healthy_verdict.
  destruct (tally api 0 (queue_of w)) as [p f].
  destruct (report_spec api p f
              (exec (for_of_queue api 0 (queue_of w) (0, 0))
                    (settle (StorageGet OFFLINE_QUEUE) w))) as (w3 & -> & Hlocal & _).
  simpl. unfold queue_of at 1. rewrite Hlocal.
  destruct (for_of_queue_healthy api (queue_of w) 0 (0, 0)
              (settle (StorageGet OFFLINE_QUEUE) w)) as [Hq _].
  { by apply healthy_settle. }
  apply Hq.
Qed.

(** X14: on a working store, a pass of a signed-in client over a queue whose
    ids are pairwise different numbers leaves exactly the entries whose
    replay did not succeed, in their order. *)
Theorem processOfflineQueue_leaves_the_failed api w :
  api_isAuthenticated api = true →
  healthy w →
  unique_ids (queue_of w) = true →
  ids_are_numbers (queue_of w) →
  queue_of (exec (processOfflineQueue api) w) = unacknowledged api 0 (queue_of w).
Proof.
  intros Hauth Hw Huniq Hnum. rewrite processOfflineQueue_healthy by done.
  apply (filter_acknowledged api (queue_of w) 0 []); [done..|].
  by intros e i _ []%elem_of_nil.
Qed.

Lemma processOfflineQueue_leaves_the_failed_witness :
  let api := TurbodocAPI.client signed_in server_error_then_created in
  let w := enqueue_all three_enqueues empty_world in
  queue_of (exec (processOfflineQueue api) w) = unacknowledged api 0 (queue_of w).
Proof.
  apply (processOfflineQueue_leaves_the_failed
           (TurbodocAPI.client signed_in server_error_then_created)
           (enqueue_all three_enqueues empty_world)).
  - reflexivity.
  - unfold healthy. simpl. constructor.
  - reflexivity.
  - unfold ids_are_numbers. simpl. repeat constructor.
Defined.

(** X15: once a pass on a working store has replayed every entry with
    success, the next pass, whatever its client answers, finds nothing to
    do: it submits nothing and leaves the store as it is. *)
Theorem drained_queue_stays_idle api api' w :
  api_isAuthenticated api = true →
  healthy w →
  ids_are_numbers (queue_of w) →
  (∀ k item, queue_of w !! k = Some item →
             replay_ok (api_createBookmark api k item) = true) →
  let w1 := exec (processOfflineQueue api) w in
  let w2 := exec (processOfflineQueue api') w1 in
  queue_of w1 = [] ∧
  local w2 = local w1 ∧
  submitted (trace w2) = submitted (trace w1).
Proof.
  intros Hauth Hw Hnum Hok w1 w2.
  assert (queue_of w1 = []) as Hdrained.
  { subst w1. rewrite processOfflineQueue_healthy by done.
    destruct (tally_all_ok api (queue_of w) 0) as [_ ->]; [done|].
    by apply all_acknowledged. }
  split; [done|]. clearbody w1. subst w2. unfold exec.
  destruct (api_isAuthenticated api') eqn:Hauth'.
  - rewrite processOfflineQueue_idle by auto. simpl.
    by rewrite submitted_snoc, app_nil_r.
  - by rewrite processOfflineQueue_signed_out.
Qed.

Lemma drained_queue_stays_idle_witness :
  let api := TurbodocAPI.client signed_in always_created in
  let w1 := exec (processOfflineQueue api) (enqueue_all three_enqueues empty_world) in
  let w2 := exec (processOfflineQueue api) w1 in
  queue_of w1 = [] ∧
  local w2 = local w1 ∧
  submitted (trace w2) = submitted (trace w1).
Proof.
  apply (drained_queue_stays_idle
           (TurbodocAPI.client signed_in always_created)
           (TurbodocAPI.client signed_in always_created)
           (enqueue_all three_enqueues empty_world)).
  - reflexivity.
  - unfold healthy. simpl. constructor.
  - unfold ids_are_numbers. simpl. repeat constructor.
  - intros k item _. reflexivity.
Defined.

Lemma badge_texts_app tr1 tr2 :
  badge_texts (tr1 ++ tr2) = badge_texts tr1 ++ badge_texts tr2.
Proof. apply omap_app. Qed.

Lemma report_badge api p f w :
  healthy w →
  badge_texts (trace (exec (report api (p, f)) w))
  = badge_texts (trace w)
    ++ (if 0 <? p
        then [ if api_isAuthenticated api && (0 <? length (queue_of w))
               then pretty (length (queue_of w)) else "" ]
        else []).
Proof.
  intros Hw. unfold exec, report, bind. destruct (0 <? p).
  - unfold console at 1.
    pose proof (updateBadge_trace api
      (emit (Console Log ("Processed " +:+ pretty p +:+ " offline bookmarks")) w)
      (healthy_emit _ _ Hw)) as Htrace.
    unfold exec in Htrace.
    destruct (updateBadge_spec api
      (emit (Console Log ("Processed " +:+ pretty p +:+ " offline bookmarks")) w))
      as (w' & Heq & _).
    rewrite Heq in Htrace |- *. simpl in Htrace.
    assert (badge_texts (trace w')
            = badge_texts (trace w)
              ++ [ if api_isAuthenticated api && (0 <? length (queue_of w))
                   then pretty (length (queue_of w)) else "" ]) as Hbadge.
    { rewrite Htrace, badge_texts_app, badge_texts_snoc, app_nil_r.
      rewrite queue_of_emit.
      by destruct (api_isAuthenticated api), (0 <? length (queue_of w)). }
    destruct (1 <? p).
    + unfold showNotification.
      destruct (chrome_notifications w'), (0 <? f); simpl;
        by rewrite ?badge_texts_snoc, ?app_nil_r.
    + unfold ret at 1. destruct (0 <? f); simpl;
        by rewrite ?badge_texts_snoc, ?app_nil_r.
  - unfold ret at 1. destruct (0 <? f); simpl;
      by rewrite ?badge_texts_snoc, ?app_nil_r.
Qed.

(** X16: on a working browser, a pass of a signed-in client in which at
    least one replay succeeds sets the badge once, to the number of entries
    it leaves in the queue, or clears it when it leaves none. *)
Theorem processOfflineQueue_badge api w :
  api_isAuthenticated api = true →
  healthy w →
  acknowledged api 0 (queue_of w) ≠ [] →
  let w' := exec (processOfflineQueue api) w in
  badge_texts (trace w')
  = badge_texts (trace w)
    ++ [ if 0 <? length (queue_of w') then pretty (length (queue_of w')) else "" ].
Proof.
  intros Hauth Hw Hack w'. subst w'. unfold exec.
  assert (queue_of w ≠ []) as Hne by (by intros Hq; rewrite Hq in Hack).
  rewrite processOfflineQueue_pass by auto using healthy_verdict.
  destruct (tally_lengths api 0 (queue_of w)) as [-> _].
  destruct (for_of_queue_healthy api (queue_of w) 0 (0, 0)
              (settle (StorageGet OFFLINE_QUEUE) w)) as [_ Hw2].
  { by apply healthy_settle. }
  destruct (for_of_queue_store api (queue_of w) 0 (0, 0)
              (settle (StorageGet OFFLINE_QUEUE) w)) as (_ & _ & Hbadge).
  pose proof (report_badge api (length (acknowledged api 0 (queue_of w)))
                (length (unacknowledged api 0 (queue_of w))) _ Hw2) as Hreport.
  destruct (report_spec api (length (acknowledged api 0 (queue_of w)))
              (length (unacknowledged api 0 (queue_of w)))
              (exec (for_of_queue api 0 (queue_of w) (0, 0))
                    (settle (StorageGet OFFLINE_QUEUE) w))) as (w3 & Heq & Hlocal & _).
  unfold exec at 1 in Hreport. rewrite Heq in Hreport |- *. cbn [snd] in Hreport |- *.
  rewrite Hreport, Hbadge, Hauth. simpl. rewrite badge_texts_snoc, app_nil_r.
  assert (queue_of w3
          = queue_of (exec (for_of_queue api 0 (queue_of w) (0, 0))
                        (settle (StorageGet OFFLINE_QUEUE) w))) as ->
    by (unfold queue_of; by rewrite Hlocal).
  by destruct (acknowledged api 0 (queue_of w)).
Qed.

Lemma processOfflineQueue_badge_witness :
  let api := TurbodocAPI.client signed_in server_error_then_created in
  let w := enqueue_all three_enqueues empty_world in
  let w' := exec (processOfflineQueue api) w in
  badge_texts (trace w')
  = badge_texts (trace w)
    ++ [ if 0 <? length (queue_of w') then pretty (length (queue_of w')) else "" ].
Proof.
  apply (processOfflineQueue_badge
           (TurbodocAPI.client signed_in server_error_then_created)
           (enqueue_all three_enqueues empty_world)).
  - reflexivity.
  - unfold healthy. simpl. constructor.
  - discriminate.
Defined.

Lemma showNotification_eq title text w :
  showNotification title text w
  = (Return tt,
     emit (Notify (if chrome_notifications w then ChromeNotifications else ConsoleFallback)
                  title text) w).
Proof. unfold showNotification. by destruct (chrome_notifications w). Qed.

Ltac crunch_trace :=
  simpl; rewrite ?notifications_snoc, ?submitted_snoc, ?app_nil_r; simpl;
  rewrite ?app_nil_r.

(** Whatever the store does, an enqueue touches the queue key only and
    shows nothing. *)
Lemma addToOfflineQueue_frame bookmarkData r w :
  let w' := exec (addToOfflineQueue bookmarkData r) w in
  (∀ k, k ≠ OFFLINE_QUEUE → local w' !! k = local w !! k) ∧
  notifications (trace w') = notifications (trace w).
Proof.
  cbv zeta. unfold exec. rewrite addToOfflineQueue_eq.
  destruct (verdict w); [|destruct (verdict _)]; cbn [snd].
  - split; [done|]. by crunch_trace.
  - split; [done|]. by crunch_trace.
  - split; [|by crunch_trace]. intros k Hk. simpl. by rewrite lookup_insert_ne.
Qed.

(** A click of a signed-in user on a tab, case by case: the world [w0] is
    the one in which [createBookmark] has settled. *)
Lemma handleContextMenuClick_signed_in st fetch info t r w :
  TurbodocAPI.isAuthenticated st = true →
  let bookmarkData := clicked_bookmark info t in
  let result := TurbodocAPI.createBookmark st fetch bookmarkData in
  let w0 := logged (TurbodocAPI.createBookmark_console st fetch bookmarkData) w in
  let notify title text w :=
    emit (Notify (if chrome_notifications w then ChromeNotifications else ConsoleFallback)
            title text) w in
  handleContextMenuClick st fetch info (Some t) r w
  = (Return tt,
     if api_success result then
       exec (updateBadge (TurbodocAPI.client st (λ _, fetch)))
         (notify "Bookmark Saved!"
            (QUOTE +:+ title_text bookmarkData +:+ QUOTE +:+ " was saved to Turbodoc") w0)
     else
       match api_error result with
       | Some (Js.Text error) =>
           if retryable error
           then notify "Saved Offline" "Bookmark will sync when connection is restored"
                  (exec (addToOfflineQueue bookmarkData r) w0)
           else notify "Error" error w0
       | _ => notify "Error" "Failed to save bookmark"
                (emit (Console Err "Context menu error:") w0)
       end).
Proof.
  intros Hauth. cbv zeta. unfold handleContextMenuClick, try_catch, retryable.
  rewrite Hauth. cbn [negb]. unfold bind at 1.
  destruct (api_success _).
  - unfold bind, exec. rewrite showNotification_eq.
    match goal with
    | |- context [updateBadge ?api ?w0] =>
        by destruct (updateBadge_spec api w0) as (w' & -> & _)
    end.
  - destruct (api_error _) as [[error|key]|].
    + destruct (_ || _).
      * unfold bind, exec. rewrite addToOfflineQueue_eq.
        destruct (verdict _); [|destruct (verdict _)];
          cbn iota beta zeta; by rewrite showNotification_eq.
      * by rewrite showNotification_eq.
    + unfold bind, console. by rewrite showNotification_eq.
    + unfold bind, console. by rewrite showNotification_eq.
Qed.

Lemma chrome_notifications_logged lines w :
  chrome_notifications (logged lines w) = chrome_notifications w.
Proof. by rewrite logged_eq. Qed.

(** X17: a context menu click never throws and always ends with exactly one
    notification, whatever the client, the service and the store do; it
    leaves the queue as it was or with the clicked bookmark appended, and
    touches no other key of the store. *)
Theorem handleContextMenuClick_one_notification st fetch info tab r w :
  let w' := exec (handleContextMenuClick st fetch info tab r) w in
  outcome (handleContextMenuClick st fetch info tab r) w = Return tt ∧
  (∃ title text, notifications (trace w') = notifications (trace w) ++ [(title, text)]) ∧
  (queue_of w' = queue_of w ∨
   ∃ t, tab = Some t ∧ queue_of w' = queue_of w ++ [new_entry (clicked_bookmark info t) r]) ∧
  (∀ k, k ≠ OFFLINE_QUEUE → local w' !! k = local w !! k).
Proof.
  cbv zeta. unfold outcome, exec.
  destruct (TurbodocAPI.isAuthenticated st) eqn:Hauth.
  2: { unfold handleContextMenuClick, try_catch. rewrite Hauth. cbn [negb].
       rewrite showNotification_eq. split_and!; [done| |by left|done].
       eexists _, _. by crunch_trace. }
  destruct tab as [t|].
  2: { unfold handleContextMenuClick, try_catch. rewrite Hauth. cbn [negb].
       unfold bind, console. rewrite showNotification_eq.
       split_and!; [done| |by left|done]. eexists _, _. by crunch_trace. }
  rewrite handleContextMenuClick_signed_in by done. cbv zeta. cbn [fst snd].
  set (w0 := logged _ w).
  assert (notifications (trace w0) = notifications (trace w)) as Hnot0
    by apply notifications_logged.
  assert (local w0 = local w) as Hlocal0 by apply local_logged.
  assert (queue_of w0 = queue_of w) as Hqueue0 by apply queue_of_logged.
  split; [done|].
  destruct (api_success _).
  - match goal with
    | |- context [exec (updateBadge ?api) ?w1] =>
        destruct (updateBadge_spec api w1) as (w' & Heq & Hlocal & _ & _ & Hnot)
    end.
    unfold exec. rewrite Heq. cbn [snd]. split_and!; [|left|].
    + eexists _, _. rewrite Hnot. crunch_trace. by rewrite Hnot0.
    + unfold queue_of. by rewrite Hlocal, local_emit, Hlocal0.
    + intros k _. by rewrite Hlocal, local_emit, Hlocal0.
  - destruct (api_error _) as [[error|key]|].
    + destruct (retryable error).
      * destruct (addToOfflineQueue_frame (clicked_bookmark info t) r w0) as [Hkeys Hnot].
        split_and!.
        -- eexists _, _. crunch_trace. by rewrite Hnot, Hnot0.
        -- rewrite queue_of_emit.
           destruct (addToOfflineQueue_queue (clicked_bookmark info t) r w0) as [-> | ->];
             rewrite Hqueue0; [by left|right; by exists t].
        -- intros k Hk. by rewrite local_emit, Hkeys, Hlocal0.
      * split_and!; [|by left|by intros k _; rewrite local_emit, Hlocal0].
        eexists _, _. crunch_trace. by rewrite Hnot0.
    + split_and!; [|by left|by intros k _; rewrite !local_emit, Hlocal0].
      eexists _, _. crunch_trace. by rewrite Hnot0.
    + split_and!; [|by left|by intros k _; rewrite !local_emit, Hlocal0].
      eexists _, _. crunch_trace. by rewrite Hnot0.
Qed.

(** X18: what a click of a signed-in user on a tab ends with. If
    [createBookmark] succeeds, the [Bookmark Saved!] notification with the
    title in quotes; if it fails with an error text that mentions [Network]
    or [Server], the [Saved Offline] notification, whether or not the store
    took the entry; if it fails with another error text, an [Error]
    notification with that text; and if the error is not a string (or there
    is none), the [Failed to save bookmark] notification of the [catch]. On
    a working store the queue gains the clicked bookmark in the second case
    and is unchanged in the others. *)
Theorem handleContextMenuClick_outcome st fetch info t r w :
  TurbodocAPI.isAuthenticated st = true →
  let bookmarkData := clicked_bookmark info t in
  let result := TurbodocAPI.createBookmark st fetch bookmarkData in
  let w' := exec (handleContextMenuClick st fetch info (Some t) r) w in
  notifications (trace w')
  = notifications (trace w)
    ++ [ if api_success result then
           ("Bookmark Saved!",
            QUOTE +:+ title_text bookmarkData +:+ QUOTE +:+ " was saved to Turbodoc")
         else
           match api_error result with
           | Some (Js.Text error) =>
               if retryable error
               then ("Saved Offline", "Bookmark will sync when connection is restored")
               else ("Error", error)
           | _ => ("Error", "Failed to save bookmark")
           end ] ∧
  (healthy w →
   queue_of w'
   = if queued_on_failure result
     then queue_of w ++ [new_entry bookmarkData r]
     else queue_of w).
Proof.
  intros Hauth. cbv zeta. unfold exec, queued_on_failure.
  rewrite handleContextMenuClick_signed_in by done. cbv zeta. cbn [fst snd].
  set (w0 := logged _ w).
  assert (notifications (trace w0) = notifications (trace w)) as Hnot0
    by apply notifications_logged.
  assert (queue_of w0 = queue_of w) as Hqueue0 by apply queue_of_logged.
  destruct (api_success _); cbn [negb andb].
  - match goal with
    | |- context [exec (updateBadge ?api) ?w1] =>
        destruct (updateBadge_spec api w1) as (w' & Heq & Hlocal & _ & _ & Hnot)
    end.
    unfold exec. rewrite Heq. cbn [snd]. split.
    + rewrite Hnot. crunch_trace. by rewrite Hnot0.
    + intros _. unfold queue_of. rewrite Hlocal, local_emit. apply Hqueue0.
  - destruct (api_error _) as [[error|key]|].
    + destruct (retryable error).
      * destruct (addToOfflineQueue_frame (clicked_bookmark info t) r w0) as [_ Hnot].
        split.
        -- crunch_trace. by rewrite Hnot, Hnot0.
        -- intros Hw. rewrite queue_of_emit.
           destruct (addToOfflineQueue_healthy (clicked_bookmark info t) r w0)
             as (_ & -> & _); [by apply healthy_logged|].
           by rewrite Hqueue0.
      * split; [|done]. crunch_trace. by rewrite Hnot0.
    + split; [|done]. crunch_trace. by rewrite Hnot0.
    + split; [|done]. crunch_trace. by rewrite Hnot0.
Qed.

Lemma handleContextMenuClick_outcome_witness :
  let w' := exec (handleContextMenuClick signed_in (status_only 503 0) page_click
                    (Some docs_tab) readings_A) empty_world in
  notifications (trace w')
  = [("Saved Offline", "Bookmark will sync when connection is restored")] ∧
  queue_of w' = [new_entry (clicked_bookmark page_click docs_tab) readings_A].
Proof.
  destruct (handleContextMenuClick_outcome signed_in (status_only 503 0) page_click docs_tab
              readings_A empty_world eq_refl) as [Hshown Hqueue].
  split; [exact Hshown|]. apply Hqueue. unfold healthy. simpl. constructor.
Defined.

(** Two answers of the service that the client turns into unusual errors.
    The message [constructor] names a member of [Object.prototype], so the
    error of the result is a function, testing it throws, and the click ends
    in its [catch]. A body [null] makes [response.data] throw, and the click
    shows the text of that [TypeError]. *)
Lemma handleContextMenuClick_unusual_errors :
  let bookmarkData := clicked_bookmark page_click docs_tab in
  let click fetch :=
    exec (handleContextMenuClick signed_in fetch page_click (Some docs_tab) readings_A)
         empty_world in
  TurbodocAPI.createBookmark signed_in bad_request_constructor bookmarkData
    = mkApiResult false None (Some (Js.Member "constructor")) ∧
  notifications (trace (click bad_request_constructor))
    = [("Error", "Failed to save bookmark")] ∧
  console_lines (trace (click bad_request_constructor))
    = [ (Err, "Create bookmark error:"); (Err, "Context menu error:") ] ∧
  TurbodocAPI.createBookmark signed_in ok_null bookmarkData
    = mkApiResult false None
        (Some (Js.Text "Cannot read properties of null (reading 'data')")) ∧
  notifications (trace (click ok_null))
    = [("Error", "Cannot read properties of null (reading 'data')")].
Proof. vm_compute. repeat split. Qed.

(** What a pass of a signed-in client submits and shows, once the snapshot
    is read. *)
Lemma processOfflineQueue_trace api w :
  api_isAuthenticated api = true → verdict w = false →
  let w' := exec (processOfflineQueue api) w in
  let p := length (acknowledged api 0 (queue_of w)) in
  submitted (trace w') = submitted (trace w) ++ queue_of w ∧
  notifications (trace w')
  = notifications (trace w)
    ++ (if 1 <? p then [("Sync Complete", pretty p +:+ " offline bookmarks synced")]
        else []).
Proof.
  intros Hauth Hread. cbv zeta. unfold exec.
  destruct (decide (queue_of w = [])) as [Hempty|Hne].
  { rewrite processOfflineQueue_idle by auto. rewrite Hempty. by crunch_trace. }
  rewrite processOfflineQueue_pass by done.
  destruct (tally_lengths api 0 (queue_of w)) as [-> _].
  destruct (report_spec api (length (acknowledged api 0 (queue_of w)))
              (length (unacknowledged api 0 (queue_of w)))
              (exec (for_of_queue api 0 (queue_of w) (0, 0))
                    (settle (StorageGet OFFLINE_QUEUE) w)))
    as (w3 & -> & _ & Hsub & Hnot).
  cbn [snd]. rewrite Hsub, Hnot.
  destruct (for_of_queue_trace api (queue_of w) 0 (0, 0)
              (settle (StorageGet OFFLINE_QUEUE) w)) as (_ & -> & ->).
  by crunch_trace.
Qed.

(** X19: save offline, then sync. On a working browser with an empty queue,
    a click of a signed-in user that the service fails with a queueable
    error leaves the clicked bookmark as the only queued entry and shows
    [Saved Offline]; a later pass in which its replay succeeds submits
    exactly that entry, empties the queue and shows nothing more. *)
Theorem saved_offline_then_synced st fetch info t r api w :
  healthy w →
  queue_of w = [] →
  TurbodocAPI.isAuthenticated st = true →
  queued_on_failure (TurbodocAPI.createBookmark st fetch (clicked_bookmark info t)) = true →
  Js.strict_eq (id (new_entry (clicked_bookmark info t) r))
               (id (new_entry (clicked_bookmark info t) r)) = true →
  api_isAuthenticated api = true →
  replay_ok (api_createBookmark api 0 (new_entry (clicked_bookmark info t) r)) = true →
  let w1 := exec (handleContextMenuClick st fetch info (Some t) r) w in
  let w2 := exec (processOfflineQueue api) w1 in
  queue_of w1 = [new_entry (clicked_bookmark info t) r] ∧
  queue_of w2 = [] ∧
  submitted (trace w2) = submitted (trace w) ++ [new_entry (clicked_bookmark info t) r] ∧
  notifications (trace w2)
  = notifications (trace w)
    ++ [("Saved Offline", "Bookmark will sync when connection is restored")].
Proof.
  intros Hw Hempty Hauth Hqueued Hnum Hauth' Hok w1 w2.
  remember (new_entry (clicked_bookmark info t) r) as e eqn:He.
  set (w0 := logged (TurbodocAPI.createBookmark_console st fetch (clicked_bookmark info t)) w).
  assert (healthy w0) as Hw0 by (by apply healthy_logged).
  assert (queue_of w0 = []) as Hqueue0 by (subst w0; by rewrite queue_of_logged).
  assert (w1 = emit (Notify (if chrome_notifications w then ChromeNotifications
                             else ConsoleFallback)
                       "Saved Offline" "Bookmark will sync when connection is restored")
                 (exec (addToOfflineQueue (clicked_bookmark info t) r) w0)) as Hw1.
  { subst w1. unfold exec at 1.
    rewrite handleContextMenuClick_signed_in by done. cbv zeta. cbn [snd].
    unfold queued_on_failure in Hqueued.
    destruct (api_success _); [done|]. cbn [negb andb] in Hqueued.
    destruct (api_error _) as [[error|key]|]; [|done..].
    rewrite Hqueued. fold w0.
    assert (chrome_notifications (exec (addToOfflineQueue (clicked_bookmark info t) r) w0)
            = chrome_notifications w) as ->; [|done].
    unfold exec. rewrite addToOfflineQueue_eq.
    destruct (verdict _); [|destruct (verdict _)]; cbn [snd]; simpl;
      apply chrome_notifications_logged. }
  clearbody w1. subst w1.
  destruct (addToOfflineQueue_healthy (clicked_bookmark info t) r w0 Hw0)
    as (_ & Hq & Hw').
  destruct (addToOfflineQueue_frame (clicked_bookmark info t) r w0) as [_ Hnot'].
  assert (submitted (trace (exec (addToOfflineQueue (clicked_bookmark info t) r) w0))
          = submitted (trace w)) as Hsub'.
  { unfold exec. rewrite addToOfflineQueue_eq.
    destruct (verdict _); [|destruct (verdict _)]; cbn [snd]; crunch_trace;
      apply submitted_logged. }
  rewrite Hqueue0, <-He in Hq. simpl in Hq.
  set (w1 := emit _ _) in *.
  assert (healthy w1) as Hw1 by (subst w1; by apply healthy_emit).
  assert (queue_of w1 = [e]) as Hq1 by (subst w1; by rewrite queue_of_emit).
  assert (acknowledged api 0 [e] = [id e]) as Hack by (simpl; by rewrite Hok).
  destruct (processOfflineQueue_trace api w1 Hauth' (healthy_verdict _ Hw1))
    as [Hsub Hnot].
  subst w2. rewrite Hsub, Hnot, processOfflineQueue_healthy, Hq1, Hack by done.
  split_and!; [done| | |].
  - simpl. unfold Js.strict_ne. by rewrite Hnum.
  - subst w1. crunch_trace. by rewrite Hsub'.
  - subst w1. crunch_trace. rewrite Hnot'. subst w0. by rewrite notifications_logged.
Qed.

Lemma saved_offline_then_synced_witness :
  let api := TurbodocAPI.client signed_in always_created in
  let e := new_entry (clicked_bookmark page_click docs_tab) readings_A in
  let w1 := exec (handleContextMenuClick signed_in (status_only 503 0) page_click
                    (Some docs_tab) readings_A) empty_world in
  let w2 := exec (processOfflineQueue api) w1 in
  queue_of w1 = [e] ∧
  queue_of w2 = [] ∧
  submitted (trace w2) = submitted (trace empty_world) ++ [e] ∧
  notifications (trace w2)
  = notifications (trace empty_world)
    ++ [("Saved Offline", "Bookmark will sync when connection is restored")].
Proof.
  apply (saved_offline_then_synced signed_in (status_only 503 0) page_click docs_tab
           readings_A (TurbodocAPI.client signed_in always_created) empty_world).
  - unfold healthy. simpl. constructor.
  - reflexivity.
  - reflexivity.
  - reflexivity.
  - reflexivity.
  - reflexivity.
  - reflexivity.
Defined.

End background_more.

(** ** The tags field of the popup *)

Section popup_tags.
Import TurbodocPopup.
Variable ws : ascii → bool.
Implicit Types (s t : string) (c : ascii).

Lemma split_on_no_separator sep s piece :
  piece ∈ split_on sep s → ¬ In sep (String.list_ascii_of_string piece).
Proof.
  revert piece. induction s as [|c rest IH]; intros piece; simpl.
  { intros ->%list_elem_of_singleton. simpl. tauto. }
  destruct (Ascii.eqb_spec c sep) as [->|Hc].
  - intros [->|Hin]%elem_of_cons; [simpl; tauto|by apply IH].
  - destruct (split_on sep rest) as [|first pieces] eqn:Hsplit.
    + intros ->%list_elem_of_singleton. simpl. intros [?|[]]. done.
    + intros [->|Hin]%elem_of_cons.
      * simpl. intros [?|Hin]; [done|]. apply (IH first); [by left|done].
      * apply IH. by right.
Qed.

Lemma split_on_whole sep s :
  ¬ In sep (String.list_ascii_of_string s) → split_on sep s = [s].
Proof.
  induction s as [|c rest IH]; simpl; [done|]. intros Hin.
  destruct (Ascii.eqb_spec c sep) as [->|Hc]; [tauto|].
  rewrite IH; [done|tauto].
Qed.

Lemma trim_start_chars s c :
  In c (String.list_ascii_of_string (trim_start ws s)) → In c (String.list_ascii_of_string s).
Proof.
  induction s as [|a rest IH]; simpl; [done|].
  destruct (ws a); simpl; tauto.
Qed.

Lemma trim_end_chars s c :
  In c (String.list_ascii_of_string (trim_end ws s)) → In c (String.list_ascii_of_string s).
Proof.
  revert c. induction s as [|a rest IH]; intros c; simpl; [done|].
  destruct (trim_end ws rest) as [|b kept] eqn:Hrest.
  - destruct (ws a); simpl; tauto.
  - simpl. intros [?|Hin]; [tauto|]. right. apply IH. exact Hin.
Qed.

Lemma trim_start_head s :
  trim_start ws s = EmptyString ∨
  ∃ c rest, trim_start ws s = String c rest ∧ ws c = false.
Proof.
  induction s as [|a rest IH]; simpl; [by left|].
  destruct (ws a) eqn:Ha; [done|]. right. by exists a, rest.
Qed.

Lemma trim_end_cons c rest :
  ws c = false → trim_end ws (String c rest) = String c (trim_end ws rest).
Proof. intros Hc. simpl. rewrite Hc. by destruct (trim_end ws rest). Qed.

Lemma trim_end_idempotent s : trim_end ws (trim_end ws s) = trim_end ws s.
Proof.
  induction s as [|a rest IH]; simpl; [done|].
  destruct (trim_end ws rest) as [|b kept] eqn:Hrest.
  - destruct (ws a) eqn:Ha; [done|]. simpl. by rewrite Ha.
  - change (trim_end ws (String a (String b kept))
            = String a (String b kept)).
    simpl. simpl in IH. by rewrite IH.
Qed.

Lemma trim_fixed_shape s :
  trim ws s = EmptyString ∨
  ∃ c rest, trim ws s = String c rest ∧ ws c = false ∧
            trim_end ws (String c rest) = String c rest.
Proof.
  unfold trim. destruct (trim_start_head s) as [->|(c & rest & -> & Hc)]; [by left|].
  right. exists c, (trim_end ws rest). rewrite trim_end_cons by done.
  split_and!; [done..|]. by rewrite trim_end_cons, trim_end_idempotent.
Qed.

Lemma trim_idempotent s : trim ws (trim ws s) = trim ws s.
Proof.
  destruct (trim_fixed_shape s) as [->|(c & rest & -> & Hc & Hend)]; [done|].
  unfold trim. simpl trim_start. by rewrite Hc.
Qed.

Lemma parseTags_eq s :
  parseTags ws (Some s) = String.concat "|" (parsed_tags ws s).
Proof. by destruct s. Qed.

Lemma parsed_tags_no_comma s tag :
  tag ∈ parsed_tags ws s → ¬ In ","%char (String.list_ascii_of_string tag).
Proof.
  unfold parsed_tags. rewrite elem_of_filter_bool, list_elem_of_fmap.
  intros [(piece & -> & Hpiece) _] Hin.
  apply (split_on_no_separator _ _ _ Hpiece).
  by apply trim_start_chars, trim_end_chars.
Qed.

(** X21: every tag [parseTags] keeps is not empty, contains no comma, and
    has no white space at either end (trimming it again changes nothing);
    the result of [parseTags] is these tags joined by [|], and the empty
    string for [null]. *)
Theorem parseTags_keeps_clean_tags tagsString :
  parseTags ws (Some tagsString) = String.concat "|" (parsed_tags ws tagsString) ∧
  parseTags ws None = EmptyString ∧
  ∀ tag, tag ∈ parsed_tags ws tagsString →
         tag ≠ EmptyString ∧
         ¬ In ","%char (String.list_ascii_of_string tag) ∧
         trim ws tag = tag.
Proof.
  split_and!; [apply parseTags_eq|done|].
  intros tag Htag. split_and!; [|by eapply parsed_tags_no_comma|].
  - revert Htag. unfold parsed_tags. rewrite elem_of_filter_bool.
    intros [_ Hne] Hempty. by rewrite Hempty in Hne.
  - revert Htag. unfold parsed_tags. rewrite elem_of_filter_bool, list_elem_of_fmap.
    intros [(piece & -> & _) _]. apply trim_idempotent.
Qed.

Lemma chars_append s t :
  String.list_ascii_of_string (s +:+ t)
  = String.list_ascii_of_string s ++ String.list_ascii_of_string t.
Proof. induction s as [|c rest IH]; simpl; [done|]. by rewrite IH. Qed.

Lemma trim_end_append s t :
  trim_end ws t ≠ EmptyString → trim_end ws (s +:+ t) = s +:+ trim_end ws t.
Proof.
  intros Ht. induction s as [|c rest IH]; simpl; [done|]. rewrite IH.
  change (String c rest +:+ trim_end ws t) with (String c (rest +:+ trim_end ws t)).
  destruct (rest +:+ trim_end ws t) eqn:Happ; [|done].
  destruct rest; simpl in Happ; [done|discriminate].
Qed.

(** A string that starts with a character [trim] keeps and that [trim]
    leaves whole at its end. *)
Lemma clean_concat (l : list string) :
  l ≠ [] →
  Forall (λ t, ∃ c rest, t = String c rest ∧ ws c = false ∧ trim_end ws t = t) l →
  ∃ c rest, String.concat "|" l = String c rest ∧ ws c = false ∧
            trim_end ws (String.concat "|" l) = String.concat "|" l.
Proof.
  induction l as [|t l IH]; [done|]. intros _ [Ht Hl]%Forall_cons.
  destruct l as [|t2 l]; [done|].
  destruct IH as (c2 & rest2 & Heq2 & _ & Hend2); [done..|].
  destruct Ht as (c & rest & -> & Hc & Hend).
  change (String.concat "|" (String c rest :: t2 :: l))
    with (String c rest +:+ ("|" +:+ String.concat "|" (t2 :: l))).
  exists c, (rest +:+ ("|" +:+ String.concat "|" (t2 :: l))).
  split_and!; [done..|].
  assert (trim_end ws (String.concat "|" (t2 :: l)) ≠ EmptyString) as Hne
    by (by rewrite Hend2, Heq2).
  assert (trim_end ws ("|" +:+ String.concat "|" (t2 :: l))
          = "|" +:+ String.concat "|" (t2 :: l)) as Hbar.
  { rewrite trim_end_append; [by rewrite Hend2|done]. }
  rewrite trim_end_append; rewrite Hbar; done.
Qed.

Lemma parsed_tags_clean s :
  Forall (λ t, ∃ c rest, t = String c rest ∧ ws c = false ∧ trim_end ws t = t)
    (parsed_tags ws s).
Proof.
  apply Forall_forall. intros tag. unfold parsed_tags.
  rewrite elem_of_filter_bool, list_elem_of_fmap.
  intros [(piece & -> & _) Hne].
  destruct (trim_fixed_shape piece) as [Hempty|(c & rest & Heq & Hc & Hend)].
  - by rewrite Hempty in Hne.
  - exists c, rest. by rewrite Heq.
Qed.

Lemma concat_no_comma (l : list string) :
  (∀ t, t ∈ l → ¬ In ","%char (String.list_ascii_of_string t)) →
  ¬ In ","%char (String.list_ascii_of_string (String.concat "|" l)).
Proof.
  induction l as [|x l IH]; intros Hl; [simpl; tauto|].
  destruct l as [|y l]; [apply Hl; by left|].
  change (String.concat "|" (x :: y :: l))
    with (x +:+ ("|" +:+ String.concat "|" (y :: l))).
  rewrite !chars_append, !in_app_iff. intros [Hx|[Hbar|Hrest]].
  - by apply (Hl x); [left|].
  - simpl in Hbar. by destruct Hbar as [?|[]].
  - apply IH; [|done]. intros t Ht. apply Hl. by right.
Qed.

(** X22: parsing the result of [parseTags] again gives the same string. *)
Theorem parseTags_idempotent tagsString :
  parseTags ws (Some (parseTags ws tagsString)) = parseTags ws tagsString.
Proof.
  destruct tagsString as [s|]; [|done].
  rewrite (parseTags_eq s).
  pose proof (parsed_tags_clean s) as Hclean.
  pose proof (concat_no_comma (parsed_tags ws s) (parsed_tags_no_comma s)) as Hcomma.
  destruct (parsed_tags ws s) as [|t l]; [done|].
  destruct (clean_concat (t :: l)) as (c & rest & Heq & Hc & Hend); [done..|].
  rewrite Heq in *. rewrite parseTags_eq. unfold parsed_tags.
  rewrite split_on_whole by done. cbn [map]. unfold trim. cbn [trim_start].
  rewrite Hc, Hend. done.
Qed.

End popup_tags.

(** ** Preferences and the last sync *)

Section preferences_facts.
Import KeyValue Preferences.
Implicit Types (s : Store Prefs) (p : Prefs).

Lemma working_tail {V} (s : Store V) b rest :
  working s → rejections s = b :: rest → b = false ∧ Forall (λ b, b = false) rest.
Proof. unfold working. intros H Hrej. rewrite Hrej in H. by apply Forall_cons in H. Qed.

Lemma get_working {V} key (s : Store V) :
  working s →
  (get key s).1 = Return (items s !! key) ∧
  items (get key s).2 = items s ∧ working (get key s).2.
Proof.
  intros Hs. unfold get. destruct (rejections s) as [|b rest] eqn:Hrej; [done|].
  destruct (working_tail s b rest Hs Hrej) as [-> Hrest]. done.
Qed.

Lemma set_working {V} key (v : V) (s : Store V) :
  working s →
  (set key v s).1 = Return tt ∧
  items (set key v s).2 = <[key := v]> (items s) ∧ working (set key v s).2.
Proof.
  intros Hs. unfold set. destruct (rejections s) as [|b rest] eqn:Hrej.
  { split_and!; [done..|]. by constructor. }
  destruct (working_tail s b rest Hs Hrej) as [-> Hrest]. done.
Qed.

(** X23: on a working store, the preferences read after
    [setPreferences(preferences)] carry the time of the update, every given
    field with its given value, and every other field as it was before (as
    in the defaults when nothing was stored yet); no other key of the store
    is changed. *)
Theorem setPreferences_then_get p now s :
  working s →
  let s' := (setPreferences p now s).2 in
  success (setPreferences p now s).1 = true ∧
  success (getPreferences s').1 = true ∧
  (∃ d, data (getPreferences s').1 = Some d ∧
        d !! "updatedAt" = Some (PNumber now) ∧
        ∀ k, k ≠ "updatedAt" →
             d !! k = match p !! k with
                      | Some v => Some v
                      | None => default getDefaultPreferences (items s !! PREFERENCES) !! k
                      end) ∧
  (∀ key, key ≠ PREFERENCES → items s' !! key = items s !! key).
Proof.
  intros Hs. cbv zeta. unfold setPreferences, getPreferences at 1 3 5 6.
  destruct (get_working PREFERENCES s Hs) as (Hget & Hitems & Hs1).
  destruct (get PREFERENCES s) as [c s1]. simpl in Hget, Hitems, Hs1. subst c. simpl.
  destruct (set_working PREFERENCES
              (<["updatedAt" := PNumber now]>
                 (p ∪ default getDefaultPreferences (items s !! PREFERENCES))) s1 Hs1)
    as (Hset & Hitems2 & Hs2).
  destruct (set PREFERENCES _ s1) as [c s2]. simpl in Hset, Hitems2, Hs2. subst c. simpl.
  unfold getPreferences.
  destruct (get_working PREFERENCES s2 Hs2) as (Hget2 & _ & _).
  destruct (get PREFERENCES s2) as [c s3]. simpl in Hget2. subst c. simpl.
  rewrite Hitems2, Hitems. split; [done|]. split; [done|]. split.
  - eexists. split; [done|]. rewrite lookup_insert_eq. simpl. split.
    + by rewrite lookup_insert_eq.
    + intros k Hk. rewrite lookup_insert_ne by done. rewrite lookup_union.
      by destruct (p !! k), (_ !! k).
  - intros key Hkey. by rewrite lookup_insert_ne.
Qed.

Lemma setPreferences_then_get_witness :
  let s := mkStore (∅ : gmap string Prefs) [] in
  let p : Prefs := {[ "theme" := PString "dark" ]} in
  let s' := (setPreferences p 1700000000000%float s).2 in
  ∃ d, data (getPreferences s').1 = Some d ∧
       d !! "updatedAt" = Some (PNumber 1700000000000%float) ∧
       ∀ k, k ≠ "updatedAt" →
            d !! k = match p !! k with
                     | Some v => Some v
                     | None => default getDefaultPreferences (items s !! PREFERENCES) !! k
                     end.
Proof.
  apply (setPreferences_then_get {[ "theme" := PString "dark" ]} 1700000000000%float
           (mkStore ∅ [])).
  unfold working. simpl. constructor.
Defined.

(** X24: when the read inside [setPreferences] is rejected and the write is
    not, the method answers [success: true] and what it stores is built on
    the defaults, whatever was stored before: a field that is not given
    gets its default value. *)
Theorem setPreferences_after_rejected_read p now s rest :
  rejections s = true :: rest → hd false rest = false →
  success (setPreferences p now s).1 = true ∧
  ∃ d, items (setPreferences p now s).2 !! PREFERENCES = Some d ∧
       ∀ k, k ≠ "updatedAt" →
            d !! k = match p !! k with
                     | Some v => Some v
                     | None => getDefaultPreferences !! k
                     end.
Proof.
  intros Hrej Hrest. unfold setPreferences, getPreferences, get, set.
  rewrite Hrej. simpl.
  assert (∀ d0 : Prefs, ∀ k, k ≠ "updatedAt" →
            <["updatedAt" := PNumber now]> (p ∪ d0) !! k
            = match p !! k with Some v => Some v | None => d0 !! k end) as Hmerge.
  { intros d0 k Hk. rewrite lookup_insert_ne by done. rewrite lookup_union.
    by destruct (p !! k), (d0 !! k). }
  destruct rest as [|[] rest']; [|done|]; simpl;
    (split; [done|]); eexists; (split; [by rewrite lookup_insert_eq|]);
    apply Hmerge.
Qed.

Lemma setPreferences_after_rejected_read_witness :
  let s := mkStore ({[ PREFERENCES := {[ "theme" := PString "dark" ]} ]}
                      : gmap string Prefs) [true] in
  ∃ d, items (setPreferences ∅ 1700000000000%float s).2 !! PREFERENCES = Some d ∧
       d !! "theme" = Some (PString "light").
Proof.
  destruct (setPreferences_after_rejected_read ∅ 1700000000000%float
              (mkStore {[ PREFERENCES := {[ "theme" := PString "dark" ]} ]} [true]) []
              eq_refl eq_refl) as (_ & d & Hd & Hfields).
  exists d. split; [exact Hd|]. rewrite (Hfields "theme"); [reflexivity|discriminate].
Defined.

End preferences_facts.

Section last_sync_facts.
Import KeyValue LastSync.

Lemma strict_eq_sym a b : Js.strict_eq a b = true → Js.strict_eq b a = true.
Proof.
  unfold Js.strict_eq. rewrite !FloatAxioms.eqb_spec, !SFeqb_true_iff.
  destruct (Prim2SF a), (Prim2SF b); try done; intros; destruct_and?; split_and?; congruence.
Qed.

(** X25: on a working store, [getLastSync] after [setLastSync(timestamp)]
    gives a number that is [===] to the timestamp whenever the timestamp is
    not [NaN], and 0 when it is; with nothing stored it gives 0. *)
Theorem setLastSync_then_get timestamp (s : Store float) :
  working s →
  let r := (getLastSync (setLastSync timestamp s).2).1 in
  success (setLastSync timestamp s).1 = true ∧
  success r = true ∧
  (∃ n, data r = Some n ∧
        (Js.strict_eq timestamp timestamp = true → Js.strict_eq n timestamp = true) ∧
        (Js.strict_eq timestamp timestamp = false → n = 0%float)) ∧
  (items s !! LAST_SYNC = None → data (getLastSync s).1 = Some 0%float).
Proof.
  intros Hs. cbv zeta. unfold setLastSync, getLastSync.
  destruct (set_working LAST_SYNC timestamp s Hs) as (Hset & Hitems & Hs1).
  destruct (set LAST_SYNC timestamp s) as [c s1]. simpl in Hset, Hitems, Hs1. subst c.
  cbn [fst snd].
  destruct (get_working LAST_SYNC s1 Hs1) as (Hget & _ & _).
  destruct (get LAST_SYNC s1) as [c s2]. simpl in Hget. subst c. simpl.
  rewrite Hitems, lookup_insert_eq.
  destruct (get_working LAST_SYNC s Hs) as (Hget0 & _ & _).
  destruct (get LAST_SYNC s) as [c s0]. simpl in Hget0. subst c. simpl.
  split_and!; [done..| |by intros ->].
  eexists. split; [done|]. unfold truthy, Js.strict_eq.
  destruct (PrimFloat.eqb timestamp timestamp) eqn:Hnum.
  - split; [intros _|done].
    destruct (PrimFloat.eqb timestamp 0) eqn:Hzero; simpl; [|done].
    by apply strict_eq_sym.
  - split; [done|intros _]. by rewrite andb_false_r.
Qed.

Lemma setLastSync_then_get_witness :
  let s := mkStore (∅ : gmap string float) [] in
  let r := (getLastSync (setLastSync 1700000000000%float s).2).1 in
  ∃ n, data r = Some n ∧
       (Js.strict_eq 1700000000000%float 1700000000000%float = true →
        Js.strict_eq n 1700000000000%float = true) ∧
       (Js.strict_eq 1700000000000%float 1700000000000%float = false → n = 0%float).
Proof.
  apply (setLastSync_then_get 1700000000000%float (mkStore ∅ [])).
  unfold working. simpl. constructor.
Defined.

End last_sync_facts.
